(** * Zambia Tennis Association site: a shallow embedding of [app.py]

    The Flask application is modelled by pure functions: Python values are an
    inductive type, the SQLite file is a record of two optional tables, a
    request handler is a function from the request and the application state
    to a result (a response and the next state, or an uncaught exception),
    and everything the process reads from its surroundings (the clock, the
    events file, a directory listing, a storage fault) is an explicit
    argument. *)

From Stdlib Require Import ZArith NArith List Ascii String Sorted Permutation Lia.
From stdpp Require Import gmap strings list sorting.

Local Open Scope Z_scope.
Set Warnings "-register-all".

(** ** Python strings *)

(** A Python [str] is a sequence of Unicode code points. *)
Abbreviation pystr := (list N).

(** Decoding of the UTF-8 bytes of a literal of this file into code points. *)
Fixpoint utf8_decode (bs : list N) : pystr :=
  match bs with
  | [] => []
  | b0 :: r0 =>
      if (b0 <? 128)%N then b0 :: utf8_decode r0
      else match r0 with
           | [] => [b0]
           | b1 :: r1 =>
               if (b0 <? 224)%N
               then ((b0 - 192) * 64 + (b1 - 128))%N :: utf8_decode r1
               else match r1 with
                    | [] => [b0; b1]
                    | b2 :: r2 =>
                        if (b0 <? 240)%N
                        then ((b0 - 224) * 4096 + (b1 - 128) * 64 + (b2 - 128))%N
                               :: utf8_decode r2
                        else match r2 with
                             | [] => [b0; b1; b2]
                             | b3 :: r3 =>
                                 ((b0 - 240) * 262144 + (b1 - 128) * 4096
                                  + (b2 - 128) * 64 + (b3 - 128))%N
                                   :: utf8_decode r3
                             end
                    end
           end
  end.

Definition py (s : string) : pystr :=
  utf8_decode (map N_of_ascii (list_ascii_of_string s)).

(** [str.isspace] of one character: the code points with bidirectional type
    WS, B or S, or category Zs. *)
Definition py_isspace (c : N) : bool :=
  ((9 <=? c) && (c <=? 13) || (28 <=? c) && (c <=? 32)
   || (c =? 133) || (c =? 160) || (c =? 5760)
   || (8192 <=? c) && (c <=? 8202)
   || (c =? 8232) || (c =? 8233) || (c =? 8239) || (c =? 8287)
   || (c =? 12288))%N.

Fixpoint lstrip (s : pystr) : pystr :=
  match s with
  | [] => []
  | c :: r => if py_isspace c then lstrip r else s
  end.

(** [s.strip()] *)
Definition strip (s : pystr) : pystr := rev (lstrip (rev (lstrip s))).

(** [s.lower()] on the characters A-Z. On other characters Python applies the
    Unicode lower-case mapping, which this function leaves out. The handlers
    use [lower] only in [f.lower().endswith(ext)] with [ext] one of ".png",
    ".jpg", ".jpeg", ".gif", and there the two agree: no character outside
    A-Z lower-cases to one of [. p n g j e i f] alone (U+0130 gives "i"
    followed by U+0307), and the mapping never deletes a character. *)
Definition lower_char (c : N) : N :=
  if ((65 <=? c) && (c <=? 90))%N then (c + 32)%N else c.

Definition lower (s : pystr) : pystr := map lower_char s.

(** [s.endswith(suffix)] *)
Definition endswith (s suffix : pystr) : bool :=
  bool_decide (drop (length s - length suffix)%nat s = suffix).

(** [s.endswith((x, y, ...))] with a tuple of suffixes *)
Definition endswith_any (s : pystr) (suffixes : list pystr) : bool :=
  existsb (endswith s) suffixes.

(** [s < t] on strings: lexicographic on code points. *)
Fixpoint str_ltb (s t : pystr) : bool :=
  match s, t with
  | _, [] => false
  | [], _ :: _ => true
  | a :: s', b :: t' =>
      if (a <? b)%N then true
      else if (a =? b)%N then str_ltb s' t' else false
  end.

Definition str_le (s t : pystr) : Prop := str_ltb t s = false.





(** ** Exceptions and results *)

(** The subclasses of [Exception] that the modelled code can meet. *)
Inductive exn :=
| KeyError (key : pystr)
| TypeError
| ValueError
| OverflowError
| OSError
| JSONDecodeError
| IntegrityError
| OperationalError
| InterfaceError.

(** The outcome of running Python code: a value, or a raised exception. *)
Inductive result (A : Type) :=
| Ok (a : A)
| Raise (e : exn).
Arguments Ok {A} a.
Arguments Raise {A} e.

Definition bind {A B} (m : result A) (k : A -> result B) : result B :=
  match m with
  | Ok a => k a
  | Raise e => Raise e
  end.

Declare Scope result_scope.
Delimit Scope result_scope with result.
Notation "x <- m ;; k" := (bind m (fun x => k))
  (at level 100, m at next level, right associativity) : result_scope.
Local Open Scope result_scope.

(** [try: body  except Exception as e: handler e] *)
Definition try_except {A} (body : result A) (handler : exn -> result A) : result A :=
  match body with
  | Ok a => Ok a
  | Raise e => handler e
  end.

Fixpoint mapM {A B} (f : A -> result B) (l : list A) : result (list B) :=
  match l with
  | [] => Ok []
  | x :: r => y <- f x ;; ys <- mapM f r ;; Ok (y :: ys)
  end.

(** ** Python values *)

(** The values [json.load] builds (a number with a fraction or an exponent,
    a Python [float], is left out), which are also the values of the
    in-memory lists and of the dictionaries passed to the storage layer. A
    [dict] is its items in insertion order, keys distinct. *)
Inductive pyval :=
| PyNone
| PyBool (b : bool)
| PyInt (z : Z)
| PyStr (s : pystr)
| PyList (l : list pyval)
| PyDict (items : list (pystr * pyval)).

(** [d.get(k)] on the items of a dictionary *)
Fixpoint dict_get (k : pystr) (items : list (pystr * pyval)) : option pyval :=
  match items with
  | [] => None
  | (k', v) :: r => if decide (k = k') then Some v else dict_get k r
  end.

(** [bool(v)] *)
Definition truthy (v : pyval) : bool :=
  match v with
  | PyNone => false
  | PyBool b => b
  | PyInt z => negb (z =? 0)
  | PyStr s => negb (bool_decide (s = []))
  | PyList l => negb (bool_decide (l = []))
  | PyDict d => negb (bool_decide (d = []))
  end.

(** [v[key]] *)
Definition getitem (v : pyval) (key : pystr) : result pyval :=
  match v with
  | PyDict d =>
      match dict_get key d with
      | Some x => Ok x
      | None => Raise (KeyError key)
      end
  | _ => Raise TypeError
  end.

(** [iter(v)]: the elements a [for] loop, or [sorted], sees. *)
Definition py_iter (v : pyval) : result (list pyval) :=
  match v with
  | PyList l => Ok l
  | PyDict d => Ok (map (fun kv => PyStr (fst kv)) d)
  | PyStr s => Ok (map (fun c => PyStr [c]) s)
  | _ => Raise TypeError
  end.

(** [v[:n]] *)
Definition slice_to (n : nat) (v : pyval) : result pyval :=
  match v with
  | PyList l => Ok (PyList (take n l))
  | PyStr s => Ok (PyStr (take n s))
  | _ => Raise TypeError
  end.

Definition as_int (v : pyval) : option Z :=
  match v with
  | PyInt z => Some z
  | PyBool b => Some (if b then 1 else 0)
  | _ => None
  end.

(** [a == b] *)
Fixpoint py_eqb (a b : pyval) {struct a} : bool :=
  match a, b with
  | PyNone, PyNone => true
  | PyStr s, PyStr t => bool_decide (s = t)
  | PyList l, PyList m =>
      (fix all2 (l m : list pyval) {struct l} : bool :=
         match l, m with
         | [], [] => true
         | x :: l', y :: m' => py_eqb x y && all2 l' m'
         | _, _ => false
         end) l m
  | PyDict d, PyDict d' =>
      (length d =? length d')%nat &&
      (fix sub (d : list (pystr * pyval)) {struct d} : bool :=
         match d with
         | [] => true
         | (k, v) :: r =>
             match dict_get k d' with
             | Some v' => py_eqb v v' && sub r
             | None => false
             end
         end) d
  | (PyInt _ | PyBool _), (PyInt _ | PyBool _) =>
      match as_int a, as_int b with
      | Some x, Some y => x =? y
      | _, _ => false
      end
  | _, _ => false
  end.

(** [a < b]; [TypeError] when the operand types do not support it. *)
Fixpoint py_lt (a b : pyval) {struct a} : result bool :=
  match a, b with
  | PyStr s, PyStr t => Ok (str_ltb s t)
  | PyList l, PyList m =>
      (fix lex (l m : list pyval) {struct l} : result bool :=
         match l, m with
         | [], [] => Ok false
         | [], _ :: _ => Ok true
         | _ :: _, [] => Ok false
         | x :: l', y :: m' => if py_eqb x y then lex l' m' else py_lt x y
         end) l m
  | (PyInt _ | PyBool _), (PyInt _ | PyBool _) =>
      match as_int a, as_int b with
      | Some x, Some y => Ok (x <? y)
      | _, _ => Raise TypeError
      end
  | _, _ => Raise TypeError
  end.

(** ** Sorting *)

(** [list.sort] and [sorted] are stable and compare with [<] only. Whenever
    no comparison raises, a stable sort has a single possible result, and the
    insertion sort below computes it. Which pairs are compared depends on the
    algorithm. That cannot matter when the keys are all strings or all
    numbers (nothing raises), nor when two keys are of different kinds or a
    key among several is [None] or a dictionary (every key is compared with
    another one, so some comparison raises; [sort_keyed_inv] shows it for
    the sort below). For keys that are lists with items of mixed kinds it
    can matter, and there the model follows the insertion sort. *)
Section isort.
Context {A : Type} (ltb : A -> A -> bool).

Fixpoint insert_sorted (x : A) (l : list A) : list A :=
  match l with
  | [] => [x]
  | y :: r => if ltb y x then y :: insert_sorted x r else x :: l
  end.

Fixpoint isort (l : list A) : list A :=
  match l with
  | [] => []
  | x :: r => insert_sorted x (isort r)
  end.

(** [x] may stand before [y] in a sorted list: [y < x] is false. *)
Definition not_after (x y : A) : Prop := ltb y x = false.
End isort.

(** The same sort on (key, item) pairs whose keys are arbitrary values, so
    that a comparison can raise. *)
Fixpoint insert_keyed (x : pyval * pyval) (l : list (pyval * pyval))
  : result (list (pyval * pyval)) :=
  match l with
  | [] => Ok [x]
  | y :: r =>
      b <- py_lt (fst y) (fst x) ;;
      if b then (r' <- insert_keyed x r ;; Ok (y :: r')) else Ok (x :: l)
  end.

Fixpoint sort_keyed (l : list (pyval * pyval)) : result (list (pyval * pyval)) :=
  match l with
  | [] => Ok []
  | x :: r => s <- sort_keyed r ;; insert_keyed x s
  end.

(** [sorted(v, key=key)]: the keys of all items are computed first. *)
Definition sorted (key : pyval -> result pyval) (v : pyval) : result pyval :=
  items <- py_iter v ;;
  keyed <- mapM (fun e => k <- key e ;; Ok (k, e)) items ;;
  s <- sort_keyed keyed ;;
  Ok (PyList (map snd s)).

(** ** Parsing an integer *)

(** The whitespace [int] skips around a literal: the characters below 127
    that are whitespace in the C locale, and beyond them the whitespace of
    [str.isspace]. (U+001C to U+001F, which [strip] removes, are not among
    them.) *)
Definition int_isspace (c : N) : bool :=
  ((9 <=? c) && (c <=? 13) || (c =? 32) || (127 <=? c) && py_isspace c)%N.

(** The zero of each of the 66 runs of ten decimal digits (characters with
    the Unicode property Decimal) known to Unicode 14.0, the version of
    Python 3.11: ASCII, Arabic-Indic, Devanagari, ..., full-width, the
    mathematical digits, ... *)
Definition decimal_zeros : list N :=
  [48; 1632; 1776; 1984; 2406; 2534; 2662; 2790;
   2918; 3046; 3174; 3302; 3430; 3558; 3664; 3792;
   3872; 4160; 4240; 6112; 6160; 6470; 6608; 6784;
   6800; 6992; 7088; 7232; 7248; 42528; 43216; 43264;
   43472; 43504; 43600; 44016; 65296; 66720; 68912; 69734;
   69872; 69942; 70096; 70384; 70736; 70864; 71248; 71360;
   71472; 71904; 72016; 72784; 73040; 73120; 92768; 92864;
   93008; 120782; 120792; 120802; 120812; 120822; 123200; 123632;
   125264; 130032]%N.

(** The value of a decimal digit, of any script. *)
Definition digit_value (c : N) : option Z :=
  match List.find (fun z => (z <=? c) && (c <? z + 10))%N decimal_zeros with
  | Some z => Some (Z.of_N (c - z))
  | None => None
  end.

Fixpoint skip_space (s : pystr) : pystr :=
  match s with
  | [] => []
  | c :: r => if int_isspace c then skip_space r else s
  end.

(** The digits of a literal, with single underscores between digits: the
    value, the number of digits read, and what follows the literal. *)
Fixpoint read_digits (acc : Z) (n : nat) (s : pystr) : result (Z * nat * pystr) :=
  match s with
  | [] => Ok (acc, n, [])
  | c :: r =>
      match digit_value c with
      | Some d => read_digits (10 * acc + d) (S n) r
      | None =>
          if (c =? 95)%N
          then match r with
               | c' :: _ =>
                   match digit_value c' with
                   | Some _ => read_digits acc n r
                   | None => Raise ValueError
                   end
               | [] => Raise ValueError
               end
          else Ok (acc, n, s)
      end
  end.

(** The longest digit string [int] converts: the default of
    [sys.get_int_max_str_digits()] since Python 3.11. *)
Definition max_str_digits : nat := 4300.

(** A literal without its sign: it begins with a digit, only whitespace
    follows it, and it has no more digits than the limit. *)
Definition read_unsigned (s : pystr) : result Z :=
  match s with
  | c :: _ =>
      match digit_value c with
      | Some _ =>
          lit <- read_digits 0 0 s ;;
          match lit with
          | (z, n, rest) =>
              if forallb int_isspace rest && (n <=? max_str_digits)%nat
              then Ok z else Raise ValueError
          end
      | None => Raise ValueError
      end
  | [] => Raise ValueError
  end.

(** [int(s)] for a string, in base 10: whitespace, an optional sign [+] or
    [-], decimal digits of any script with single underscores between them,
    whitespace; a [ValueError] otherwise, and for more than 4300 digits. *)
Definition py_int (s : pystr) : result Z :=
  match skip_space s with
  | c :: r =>
      if (c =? 43)%N then read_unsigned r
      else if (c =? 45)%N then (z <- read_unsigned r ;; Ok (- z))
      else read_unsigned (c :: r)
  | [] => Raise ValueError
  end.

Local Open Scope string_scope.
Local Open Scope list_scope.
Local Open Scope Z_scope.

(** ** Storage: the SQLite file [database.db] *)

Inductive sqlval :=
| SqlNull
| SqlInteger (z : Z)
| SqlText (s : pystr).

(** The largest rowid, 2^63 - 1. *)
Definition max_rowid : Z := 9223372036854775807.

(** Binding of a Python value to a [?] of a statement. [d.get(k)] of a
    missing key is [None], which binds as NULL. A list or a dictionary is
    refused ([sqlite3.InterfaceError], [sqlite3.ProgrammingError] since
    Python 3.11); the handlers pass neither. *)
Definition bind_param (v : option pyval) : result sqlval :=
  match v with
  | None | Some PyNone => Ok SqlNull
  | Some (PyBool b) => Ok (SqlInteger (if b then 1 else 0))
  | Some (PyInt z) =>
      if (- max_rowid - 1 <=? z) && (z <=? max_rowid)
      then Ok (SqlInteger z) else Raise OverflowError
  | Some (PyStr s) => Ok (SqlText s)
  | Some (PyList _ | PyDict _) => Raise InterfaceError
  end.

(** A column declared NOT NULL *)
Definition not_null (v : sqlval) : result unit :=
  match v with
  | SqlNull => Raise IntegrityError
  | _ => Ok tt
  end.

Record member_row := {
  member_id : Z;
  member_name : sqlval;
  member_email : sqlval;
  member_phone : sqlval;
  member_category : sqlval;
  member_address : sqlval;
  member_age : sqlval;
  member_joined_at : sqlval }.

Record message_row := {
  message_id : Z;
  message_name : sqlval;
  message_email : sqlval;
  message_subject : sqlval;
  message_message : sqlval;
  message_sent_at : sqlval }.

(** A table with an [INTEGER PRIMARY KEY AUTOINCREMENT] column: its rows in
    insertion order and its entry in [sqlite_sequence]. *)
Record table (R : Type) := Table { rows : list R; seq : Z }.
Arguments Table {R} rows seq.
Arguments rows {R} t.
Arguments seq {R} t.

(** The database file: each table exists or not. *)
Record db := { members : option (table member_row);
               messages : option (table message_row) }.

(** The id AUTOINCREMENT gives to a new row: one more than the largest id
    the table holds or has ever held; the insert fails once the largest
    rowid has been used. *)
Definition next_rowid (ids : list Z) (seq : Z) : result Z :=
  let largest := fold_right Z.max seq ids in
  if largest <? max_rowid then Ok (largest + 1) else Raise OperationalError.

(** [init_db()]: [CREATE TABLE IF NOT EXISTS] for both tables. [fault] is a
    failure of the storage engine (the file cannot be opened or written). *)
Definition init_db (fault : option exn) (d : db) : result db :=
  match fault with
  | Some e => Raise e
  | None =>
      Ok {| members := Some (default (Table [] 0) (members d));
            messages := Some (default (Table [] 0) (messages d)) |}
  end.

(** [insert_member(data)]. [now] is [datetime.utcnow().isoformat()]. A row
    keeps the values as they were bound. *)
Definition insert_member (fault : option exn) (now : pystr)
    (data : gmap string pyval) (d : db) : result db :=
  match fault with
  | Some e => Raise e
  | None =>
      match members d with
      | None => Raise OperationalError
      | Some t =>
          name <- bind_param (data !! "name") ;;
          email <- bind_param (data !! "email") ;;
          phone <- bind_param (data !! "phone") ;;
          category <- bind_param (data !! "category") ;;
          address <- bind_param (data !! "address") ;;
          age <- bind_param (data !! "age") ;;
          _ <- not_null name ;;
          _ <- not_null email ;;
          id <- next_rowid (map member_id (rows t)) (seq t) ;;
          Ok {| members :=
                  Some (Table (rows t ++
                                 [ {| member_id := id;
                                      member_name := name;
                                      member_email := email;
                                      member_phone := phone;
                                      member_category := category;
                                      member_address := address;
                                      member_age := age;
                                      member_joined_at := SqlText now |} ]) id);
                messages := messages d |}
      end
  end.

(** [insert_message(data)] *)
Definition insert_message (fault : option exn) (now : pystr)
    (data : gmap string pyval) (d : db) : result db :=
  match fault with
  | Some e => Raise e
  | None =>
      match messages d with
      | None => Raise OperationalError
      | Some t =>
          name <- bind_param (data !! "name") ;;
          email <- bind_param (data !! "email") ;;
          subject <- bind_param (data !! "subject") ;;
          message <- bind_param (data !! "message") ;;
          _ <- not_null name ;;
          _ <- not_null email ;;
          id <- next_rowid (map message_id (rows t)) (seq t) ;;
          Ok {| members := members d;
                messages :=
                  Some (Table (rows t ++
                                 [ {| message_id := id;
                                      message_name := name;
                                      message_email := email;
                                      message_subject := subject;
                                      message_message := message;
                                      message_sent_at := SqlText now |} ]) id) |}
      end
  end.

(** ** In-memory content *)

Definition SAMPLE_NEWS : pyval :=
  PyList [
    PyDict [
        (py "title", PyStr (py "IFS Invitational Youth Tournament showcases rising stars"));
        (py "date", PyStr (py "2025-08-02"));
        (py "summary", PyStr (py "The U12 & U14 IFS Invitational at Kansanshi Golf Estate "
                             ++ py "delivered exciting matches and underscored the association’s "
                             ++ py "commitment to youth development."));
        (py "content", PyStr (py "Hosted at the picturesque Kansanshi Golf Estate in Solwezi, "
                             ++ py "the IFS Invitational Tournament for under‑12 and under‑14 "
                             ++ py "boys and girls brought together promising talent from across "
                             ++ py "Zambia. Sponsored by International Facilities Services (IFS) "
                             ++ py "in collaboration with Kansanshi Mining Project, the event "
                             ++ py "offered high‑quality playing opportunities and emphasised "
                             ++ py "sportsmanship and passion for the game. Match results and "
                             ++ py "standings were shared throughout the tournament, and "
                             ++ py "parents, coaches and officials applauded the young athletes’ "
                             ++ py "dedication.")) ];
    PyDict [
        (py "title", PyStr (py "Copperbelt Open finals produce new champions"));
        (py "date", PyStr (py "2025-08-04"));
        (py "summary", PyStr (py "After four days of thrilling tennis in Kitwe, the Copperbelt "
                             ++ py "Open crowned new champions in both the men’s and women’s "
                             ++ py "divisions."));
        (py "content", PyStr (py "The Copperbelt Open, hosted at Nkana Tennis Club, culminated "
                             ++ py "in a dramatic finals day. Spectators witnessed intense "
                             ++ py "rallies and tactical play as emerging players seized their "
                             ++ py "moment to lift the national titles. The tournament showcased "
                             ++ py "the depth of talent in Zambian tennis and provided valuable "
                             ++ py "ranking points ahead of forthcoming national events.")) ];
    PyDict [
        (py "title", PyStr (py "Ladies trials set stage for 2024 All Africa Games"));
        (py "date", PyStr (py "2023-12-27"));
        (py "summary", PyStr (py "Trials at Nkana Tennis Club determined which female players "
                             ++ py "would represent Zambia at the All Africa Games in Accra."));
        (py "content", PyStr (py "In the closing days of 2023, the association organised "
                             ++ py "women’s trials to select representatives for the 2024 All "
                             ++ py "Africa Games in Ghana. The round‑robin format produced "
                             ++ py "competitive matches and highlighted the growing depth of "
                             ++ py "women’s tennis in Zambia. The trials underline the "
                             ++ py "association’s commitment to equal opportunities and "
                             ++ py "preparing athletes for continental competition.")) ];
    PyDict [
        (py "title", PyStr (py "MIKA Hotels invests in seventh international championship"));
        (py "date", PyStr (py "2023-10-20"));
        (py "summary", PyStr (py "A £500,000 sponsorship from MIKA Hotels boosted the 7th MIKA "
                             ++ py "Tennis Championships, attracting players from nine "
                             ++ py "countries."));
        (py "content", PyStr (py "Held at Lusaka Tennis Club, the 2023 MIKA International "
                             ++ py "Championships drew around 120 participants from Zambia and "
                             ++ py "eight neighbouring countries. The significant sponsorship "
                             ++ py "from MIKA Hotels enabled higher prize money and improved "
                             ++ py "facilities, enhancing the event’s stature. The tournament "
                             ++ py "provided a platform for local athletes to test themselves "
                             ++ py "against regional competitors and showcased Zambia as a "
                             ++ py "growing hub for tennis in Southern Africa.")) ];
    PyDict [
        (py "title", PyStr (py "Junior champions crowned at Mike Mambwe Memorial"));
        (py "date", PyStr (py "2023-09-20"));
        (py "summary", PyStr (py "Thrilling finals at the Mike Mambwe Junior Championship saw "
                             ++ py "young players claim titles in the U10 and U14 categories."));
        (py "content", PyStr (py "The Mike Mambwe Junior Championship in Ndola celebrated "
                             ++ py "promising talent across the under‑10 and under‑14 divisions. "
                             ++ py "In the U10 final, a three‑set battle kept spectators on edge "
                             ++ py "before a determined young player clinched victory in a match "
                             ++ py "tie‑break. The U14 girls’ final was equally competitive, "
                             ++ py "with the champion prevailing 6–4, 7–5 after an impressive "
                             ++ py "run through the draw. These grassroots events reflect the "
                             ++ py "association’s dedication to nurturing junior players and "
                             ++ py "providing competitive opportunities across age groups.")) ];
    PyDict [
        (py "title", PyStr (py "Association recognised for successful 2024 AGM"));
        (py "date", PyStr (py "2024-12-16"));
        (py "summary", PyStr (py "The National Olympic Committee of Zambia congratulated the "
                             ++ py "association on its well‑organised Annual General Meeting."));
        (py "content", PyStr (py "In December 2024 the National Olympic Committee of Zambia "
                             ++ py "(NOCZ) publicly congratulated the Zambia Tennis Association "
                             ++ py "on hosting a successful Annual General Meeting. The "
                             ++ py "recognition reflects improved governance under the current "
                             ++ py "executive committee and encourages continued collaboration "
                             ++ py "with stakeholders to grow the sport nationwide.")) ] ].

Definition DEFAULT_EVENTS : pyval :=
  PyList [
    PyDict [
        (py "title", PyStr (py "National Championships"));
        (py "start", PyStr (py "2025-08-20"));
        (py "end", PyStr (py "2025-08-24"));
        (py "location", PyStr (py "Lusaka National Tennis Centre"));
        (py "category", PyStr (py "ZTA SENIOR"));
        (py "description", PyStr (py "The annual national championships featuring singles and "
                                 ++ py "doubles events for men and women.")) ];
    PyDict [
        (py "title", PyStr (py "Youth Development Camp"));
        (py "start", PyStr (py "2025-09-15"));
        (py "end", PyStr (py "2025-09-19"));
        (py "location", PyStr (py "Copperbelt Tennis Academy, Ndola"));
        (py "category", PyStr (py "TRAINING"));
        (py "description", PyStr (py "A training camp for junior players focusing on skill "
                                 ++ py "development, fitness and mental preparation.")) ];
    PyDict [
        (py "title", PyStr (py "Coaches Certification Course"));
        (py "start", PyStr (py "2025-10-05"));
        (py "end", PyStr (py "2025-10-08"));
        (py "location", PyStr (py "Livingstone Sports Complex"));
        (py "category", PyStr (py "TRAINING"));
        (py "description", PyStr (py "An ITF accredited certification course for tennis coaches "
                                 ++ py "seeking to upgrade their qualifications.")) ] ].

Definition SAMPLE_RANKINGS : pyval :=
  PyList [
    PyDict [
        (py "rank", PyInt 1);
        (py "player", PyStr (py "Chanda Mwila"));
        (py "points", PyInt 1580) ];
    PyDict [
        (py "rank", PyInt 2);
        (py "player", PyStr (py "Mwila Phiri"));
        (py "points", PyInt 1420) ];
    PyDict [
        (py "rank", PyInt 3);
        (py "player", PyStr (py "Josephine Banda"));
        (py "points", PyInt 1375) ];
    PyDict [
        (py "rank", PyInt 4);
        (py "player", PyStr (py "Richard Njobvu"));
        (py "points", PyInt 1290) ];
    PyDict [
        (py "rank", PyInt 5);
        (py "player", PyStr (py "Grace Tembo"));
        (py "points", PyInt 1205) ] ].

(** The events resource [data/events.json] as the process finds it at start:
    whether [os.path.exists] sees it, and what opening it and [json.load]
    give (an [OSError] when it cannot be read, a [JSONDecodeError] when its
    text is not JSON, the parsed value otherwise). *)
Record events_file := { file_exists : bool; file_json : result pyval }.

(** The module-level assignment of [EVENTS] *)
Definition load_events (f : events_file) : result pyval :=
  if file_exists f
  then try_except (file_json f) (fun _ => Ok DEFAULT_EVENTS)
  else Ok DEFAULT_EVENTS.

(** ** Requests, responses and the application state *)

Inductive http_method := GET | POST.

(** [request.form.get(k)] is [form !! k]. *)
Record request := { method : http_method; form : gmap string pystr }.

(** What a handler reads from its surroundings besides the request. *)
Record env := {
  clock : pystr;                       (* datetime.utcnow().isoformat() *)
  storage_fault : option exn;          (* a failure of the storage engine *)
  listing : result (list pystr) }.     (* os.listdir(gallery_dir) *)

(** [url_for(endpoint)] and [url_for('static', filename=...)] *)
Inductive url := UrlFor (endpoint : string) (filename : option pystr).

Inductive ctxval :=
| CtxStr (s : string)
| CtxPy (v : pyval)
| CtxUrls (l : list url).

Inductive response :=
| Render (template : string) (context : list (string * ctxval))
| Redirect (location : url)
| Json (v : pyval).

(** A flashed message: a literal, or an f-string [f"{prefix}{e}"]. *)
Inductive message :=
| Text (s : string)
| Formatted (prefix : string) (e : exn).

Record state := { st_db : db; st_flashes : list (message * string) }.

(** [flash(msg, category)] *)
Definition flash (msg : message) (category : string) (st : state) : state :=
  {| st_db := st_db st; st_flashes := st_flashes st ++ [(msg, category)] |}.

Definition with_db (d : db) (st : state) : state :=
  {| st_db := d; st_flashes := st_flashes st |}.

Definition form_get (f : gmap string pystr) (k : string) : pyval :=
  match f !! k with
  | Some v => PyStr v
  | None => PyNone
  end.

(** [form.get(k).strip() if form.get(k) else None] *)
Definition stripped_field (f : gmap string pystr) (k : string) : pyval :=
  match form_get f k with
  | PyStr v => if truthy (PyStr v) then PyStr (strip v) else PyNone
  | _ => PyNone
  end.

(** [int(form.get(k)) if form.get(k) else None] *)
Definition int_field (f : gmap string pystr) (k : string) : result pyval :=
  match form_get f k with
  | PyStr v => if truthy (PyStr v) then (z <- py_int v ;; Ok (PyInt z)) else Ok PyNone
  | _ => Ok PyNone
  end.

(** ** Handlers *)

Section handlers.
(** The in-memory events list, fixed when the process starts. *)
Variable EVENTS : pyval.

(** The variables [news_preview], [events_sorted] and [events_preview] of
    [index]. *)
Definition news_preview : result pyval := slice_to 3 SAMPLE_NEWS.

Definition events_sorted : result pyval :=
  try_except (sorted (fun e => getitem e (py "start")) EVENTS)
             (fun _ => Ok EVENTS).

Definition events_preview : result pyval :=
  es <- events_sorted ;;
  if truthy es then slice_to 6 es else Ok (PyList []).

Definition index (st : state) : result (response * state) :=
  news <- news_preview ;;
  events <- events_preview ;;
  Ok (Render "index.html" [("title", CtxStr "Home");
                           ("news", CtxPy news);
                           ("events", CtxPy events)], st).

Definition about (st : state) : result (response * state) :=
  Ok (Render "about.html" [("title", CtxStr "About")], st).

Definition news (st : state) : result (response * state) :=
  Ok (Render "news.html" [("title", CtxStr "News"); ("posts", CtxPy SAMPLE_NEWS)], st).

Definition events (st : state) : result (response * state) :=
  Ok (Render "events.html" [("title", CtxStr "Events"); ("events", CtxPy EVENTS)], st).

Definition api_events (st : state) : result (response * state) :=
  Ok (Json EVENTS, st).

Definition ranking (st : state) : result (response * state) :=
  Ok (Render "ranking.html" [("title", CtxStr "Rankings");
                             ("rankings", CtxPy SAMPLE_RANKINGS)], st).
End handlers.

Definition membership (rq : request) (ev : env) (st : state) : result (response * state) :=
  match method rq with
  | POST =>
      let name := stripped_field (form rq) "name" in
      let email := stripped_field (form rq) "email" in
      st' <- (if negb (truthy name) || negb (truthy email)
              then Ok (flash (Text "Name and email are required.") "danger" st)
              else
                try_except
                  (age <- int_field (form rq) "age" ;;
                   d <- insert_member (storage_fault ev) (clock ev)
                          (<["name" := name]>
                             (<["email" := email]>
                                (<["phone" := form_get (form rq) "phone"]>
                                   (<["category" := form_get (form rq) "category"]>
                                      (<["address" := form_get (form rq) "address"]>
                                         (<["age" := age]> ∅))))))
                          (st_db st) ;;
                   Ok (flash (Text "Thank you for registering! We will contact you soon.")
                         "success" (with_db d st)))
                  (fun e => Ok (flash (Formatted "Error saving your registration: " e)
                                  "danger" st))) ;;
      Ok (Redirect (UrlFor "membership" None), st')
  | GET => Ok (Render "membership.html" [("title", CtxStr "Membership")], st)
  end.

Definition contact (rq : request) (ev : env) (st : state) : result (response * state) :=
  match method rq with
  | POST =>
      let name := stripped_field (form rq) "name" in
      let email := stripped_field (form rq) "email" in
      st' <- (if negb (truthy name) || negb (truthy email)
              then Ok (flash (Text "Name and email are required.") "danger" st)
              else
                try_except
                  (d <- insert_message (storage_fault ev) (clock ev)
                          (<["name" := name]>
                             (<["email" := email]>
                                (<["subject" := form_get (form rq) "subject"]>
                                   (<["message" := form_get (form rq) "message"]> ∅))))
                          (st_db st) ;;
                   Ok (flash (Text "Thank you for contacting us. We will respond shortly.")
                         "success" (with_db d st)))
                  (fun e => Ok (flash (Formatted "Error sending your message: " e)
                                  "danger" st))) ;;
      Ok (Redirect (UrlFor "contact" None), st')
  | GET => Ok (Render "contact.html" [("title", CtxStr "Contact")], st)
  end.

(** The suffixes of [f.lower().endswith(('.png', '.jpg', '.jpeg', '.gif'))] *)
Definition image_suffixes : list pystr := [py ".png"; py ".jpg"; py ".jpeg"; py ".gif"].

Definition is_image (f : pystr) : bool := endswith_any (lower f) image_suffixes.

(** The list [files] of a gallery handler, after its [try] statement. *)
Definition gallery_files (ev : env) : result (list pystr) :=
  try_except (names <- listing ev ;;
              Ok (isort str_ltb (List.filter is_image names)))
             (fun _ => Ok []).

(** The three gallery handlers differ by the directory and the template. *)
Definition gallery (dir template title : string) (ev : env) (st : state)
  : result (response * state) :=
  files <- gallery_files ev ;;
  Ok (Render template
        [("title", CtxStr title);
         ("images", CtxUrls (map (fun fname => UrlFor "static" (Some (py dir ++ fname)))
                               files))], st).

Definition veterans_gallery := gallery "images/veterans/" "veterans.html" "Veterans".
Definition juniors_gallery := gallery "images/juniors/" "juniors.html" "Juniors".
Definition seniors_gallery := gallery "images/seniors/" "seniors.html" "Seniors".

(** ** Notions used in the statements *)

(** A form field is absent, or empty after trimming whitespace. *)
Definition absent_or_blank (f : gmap string pystr) (k : string) : Prop :=
  f !! k = None \/ exists v, f !! k = Some v /\ strip v = [].

(** A form field is present and not empty after trimming. *)
Definition filled (f : gmap string pystr) (k : string) : Prop :=
  exists v, f !! k = Some v /\ strip v <> [].

(** A name ends in [ext], letter case ignored. *)
Definition ends_with_ignoring_case (name ext : pystr) : Prop :=
  exists stem tail, name = stem ++ tail /\ lower tail = ext.

Definition has_image_extension (name : pystr) : Prop :=
  exists ext, In ext [py ".png"; py ".jpg"; py ".jpeg"; py ".gif"]
              /\ ends_with_ignoring_case name ext.

(** The date of a news post and the start date of an event, [[]] when the
    item has none. *)
Definition str_field (k : string) (item : pyval) : pystr :=
  match getitem item (py k) with
  | Ok (PyStr s) => s
  | _ => []
  end.

Definition has_start_date (e : pyval) : Prop :=
  exists s, getitem e (py "start") = Ok (PyStr s).

Definition lacks_start_date (e : pyval) : Prop :=
  exists x, getitem e (py "start") = Raise x.

(** The (key, item) pairs that [sorted(evs, key=lambda e: e["start"])]
    builds before it compares, and the case where every item has a key but a
    comparison of two keys raises. *)
Definition start_keys (evs : list pyval) : result (list (pyval * pyval)) :=
  mapM (fun e => k <- getitem e (py "start") ;; Ok (k, e)) evs.

(** The (key, item) pair of an event that has a start date. *)
Definition with_start (e : pyval) : pyval * pyval := (PyStr (str_field "start" e), e).

(** The kinds of values that [<] tells apart: two values of different kinds
    cannot be compared, and neither can two values of the last kind. *)
Inductive kind := KNumber | KString | KList | KUnordered.

Definition kind_of (v : pyval) : kind :=
  match v with
  | PyInt _ | PyBool _ => KNumber
  | PyStr _ => KString
  | PyList _ => KList
  | PyNone | PyDict _ => KUnordered
  end.

Definition comparison_fails (evs : list pyval) : Prop :=
  exists keyed e, start_keys evs = Ok keyed /\ sort_keyed keyed = Raise e.

Definition start_ltb (a b : pyval) : bool :=
  str_ltb (str_field "start" a) (str_field "start" b).

Definition start_le (a b : pyval) : Prop :=
  str_le (str_field "start" a) (str_field "start" b).

(** The [k] most recent items of [all], by date. *)
Definition most_recent (k : nat) (all shown : list pyval) : Prop :=
  length shown = Nat.min k (length all)
  /\ (forall x, In x shown -> In x all)
  /\ forall x y, In x shown -> In y all -> ~ In y shown ->
                 str_le (str_field "date" y) (str_field "date" x).

Definition member_rows (d : db) : list member_row :=
  match members d with Some t => rows t | None => [] end.

Definition message_rows (d : db) : list message_row :=
  match messages d with Some t => rows t | None => [] end.

Definition nonempty_text (v : sqlval) : Prop :=
  exists s, v = SqlText s /\ s <> [].

(** A row has a name and an email. *)
Definition named_member (r : member_row) : Prop :=
  nonempty_text (member_name r) /\ nonempty_text (member_email r).

Definition named_message (r : message_row) : Prop :=
  nonempty_text (message_name r) /\ nonempty_text (message_email r).

(** ** Sample inputs *)

Definition listing_env (l : result (list pystr)) : env :=
  {| clock := py "2025-08-01T09:30:00"; storage_fault := None; listing := l |}.

Definition sample_env : env := listing_env (Ok []).

(** A database file without tables, and one on which [init_db] has run. *)
Definition empty_db : db := {| members := None; messages := None |}.

Definition fresh_db : db :=
  {| members := Some (Table [] 0); messages := Some (Table [] 0) |}.

Definition empty_state : state := {| st_db := empty_db; st_flashes := [] |}.

Definition fresh_state : state := {| st_db := fresh_db; st_flashes := [] |}.

Definition post (fields : list (string * pystr)) : request :=
  {| method := POST; form := list_to_map fields |}.

Definition event (title start : string) : pyval :=
  PyDict [(py "title", PyStr (py title)); (py "start", PyStr (py start))].

Definition dated_events : list pyval :=
  [event "Open" "2025-11-02"; event "Camp" "2025-01-15"; event "Clinic" "2025-06-01";
   event "Finals" "2025-12-20"; event "Trials" "2025-03-09"; event "League" "2025-06-01";
   event "Course" "2025-02-11"].

Definition undated_events : list pyval :=
  [event "Open" "2025-11-02"; PyDict [(py "title", PyStr (py "Camp"))];
   event "Clinic" "2025-06-01"].

Definition mixed_events : list pyval :=
  [event "Open" "2025-11-02";
   PyDict [(py "title", PyStr (py "Camp")); (py "start", PyInt 20250115)]].

(** ** Serving requests *)

(** A request that reaches a view function: one case for each [app.route],
    with the request for the two routes that also accept POST. *)
Inductive visit :=
| VisitIndex
| VisitAbout
| VisitNews
| VisitEvents
| VisitApiEvents
| VisitRanking
| VisitMembership (rq : request)
| VisitContact (rq : request)
| VisitVeterans
| VisitJuniors
| VisitSeniors.

Definition serve (EVENTS : pyval) (v : visit) (ev : env) (st : state)
  : result (response * state) :=
  match v with
  | VisitIndex => index EVENTS st
  | VisitAbout => about st
  | VisitNews => news st
  | VisitEvents => events EVENTS st
  | VisitApiEvents => api_events EVENTS st
  | VisitRanking => ranking st
  | VisitMembership rq => membership rq ev st
  | VisitContact rq => contact rq ev st
  | VisitVeterans => veterans_gallery ev st
  | VisitJuniors => juniors_gallery ev st
  | VisitSeniors => seniors_gallery ev st
  end.

(** The state after the process has served the requests one after the
    other. A view that raises is answered with a server error and leaves
    the state as it was. *)
Fixpoint serve_all (EVENTS : pyval) (vs : list (visit * env)) (st : state) : state :=
  match vs with
  | [] => st
  | (v, ev) :: r =>
      match serve EVENTS v ev st with
      | Ok (_, st') => serve_all EVENTS r st'
      | Raise _ => serve_all EVENTS r st
      end
  end.

(** A visit that submits a form. *)
Definition is_post (v : visit) : bool :=
  match v with
  | VisitMembership rq | VisitContact rq =>
      match method rq with POST => true | GET => false end
  | _ => false
  end.

(** A text field as it was submitted: NULL when the form has no such field,
    the text itself, empty or not, otherwise. *)
Definition submitted_text (f : gmap string pystr) (k : string) : sqlval :=
  match f !! k with
  | Some v => SqlText v
  | None => SqlNull
  end.

(** The age a form submits: none when the field is absent or empty, an
    integer of 64 bits otherwise. *)
Definition submitted_age (f : gmap string pystr) (v : sqlval) : Prop :=
  (v = SqlNull /\ (f !! "age" = None \/ f !! "age" = Some []))
  \/ exists a z, f !! "age" = Some a /\ a <> [] /\ py_int a = Ok z
                 /\ - max_rowid - 1 <= z <= max_rowid /\ v = SqlInteger z.

(** A string that neither begins nor ends with whitespace, and is not
    empty. *)
Definition trimmed (s : pystr) : Prop :=
  s <> []
  /\ (forall c, head s = Some c -> py_isspace c = false)
  /\ (forall c, last s = Some c -> py_isspace c = false).

Definition trimmed_text (v : sqlval) : Prop :=
  exists s, v = SqlText s /\ trimmed s.

(** The ids 1, 2, ..., n. *)
Definition first_ids (n : nat) : list Z := map Z.of_nat (List.seq 1 n).

(** A table whose rows carry the ids 1, 2, ... in insertion order. *)
Definition numbered {R : Type} (id : R -> Z) (t : option (table R)) : Prop :=
  match t with
  | Some t => map id (rows t) = first_ids (length (rows t))
              /\ seq t = Z.of_nat (length (rows t))
  | None => True
  end.

Definition same_start (d : pystr) (e : pyval) : bool :=
  bool_decide (str_field "start" e = d).

(** The values of [EVENTS] for which the last statement of [index],
    [events_sorted[:6] if events_sorted else []], slices something that is
    neither a list nor a string. *)
Definition unsliceable (v : pyval) : Prop :=
  match v with
  | PyDict (_ :: _) => True
  | PyInt z => z <> 0
  | PyBool b => b = true
  | _ => False
  end.

(** * Properties *)

(** ** The order on strings *)

Lemma str_ltb_irrefl (s : pystr) : str_ltb s s = false.
Proof.
  induction s as [|a s IH]; simpl; [reflexivity|].
  rewrite N.ltb_irrefl, N.eqb_refl. exact IH.
Qed.

Lemma str_ltb_cons (a b : N) (s t : pystr) :
  str_ltb (a :: s) (b :: t) = true <-> (a < b)%N \/ (a = b /\ str_ltb s t = true).
Proof.
  simpl. destruct (N.ltb_spec a b) as [Hlt|Hge].
  - split; [left; exact Hlt | reflexivity].
  - destruct (N.eqb_spec a b) as [->|Hne].
    + split; [intros H; right; auto | intros [H|[_ H]]; [lia | exact H]].
    + split; [discriminate | intros [H|[H _]]; [lia | contradiction]].
Qed.

Lemma str_ltb_trans (s t u : pystr) :
  str_ltb s t = true -> str_ltb t u = true -> str_ltb s u = true.
Proof.
  revert t u. induction s as [|a s IH]; intros [|b t] [|c u]; try discriminate;
    try reflexivity.
  rewrite !str_ltb_cons. intros [H1|[-> H1]] [H2|[-> H2]].
  - left; lia.
  - left; exact H1.
  - left; exact H2.
  - right; split; [reflexivity | eapply IH; eassumption].
Qed.

Lemma str_ltb_asym (s t : pystr) : str_ltb s t = true -> str_ltb t s = false.
Proof.
  intros H. destruct (str_ltb t s) eqn:E; [|reflexivity].
  pose proof (str_ltb_trans _ _ _ H E) as H'. rewrite str_ltb_irrefl in H'.
  discriminate.
Qed.

Lemma str_ltb_connex (s t : pystr) :
  str_ltb s t = false -> str_ltb t s = false -> s = t.
Proof.
  revert t. induction s as [|a s IH]; intros [|b t]; try discriminate;
    [reflexivity|].
  simpl. destruct (N.ltb_spec a b); [discriminate|].
  destruct (N.ltb_spec b a); [destruct (N.eqb_spec a b); [lia | discriminate]|].
  assert (a = b) as -> by lia. rewrite N.eqb_refl.
  intros H1 H2. f_equal. apply IH; assumption.
Qed.

Lemma str_le_refl (s : pystr) : str_le s s.
Proof. apply str_ltb_irrefl. Qed.

Lemma str_le_trans (s t u : pystr) : str_le s t -> str_le t u -> str_le s u.
Proof.
  unfold str_le. intros H1 H2. destruct (str_ltb u s) eqn:E; [|reflexivity].
  destruct (str_ltb s t) eqn:E1.
  - rewrite (str_ltb_trans _ _ _ E E1) in H2. discriminate.
  - rewrite (str_ltb_connex _ _ E1 H1) in E. congruence.
Qed.

Lemma str_le_antisym (s t : pystr) : str_le s t -> str_le t s -> s = t.
Proof. unfold str_le. intros H1 H2. apply str_ltb_connex; assumption. Qed.

Lemma str_le_total (s t : pystr) : str_le s t \/ str_le t s.
Proof.
  unfold str_le. destruct (str_ltb t s) eqn:E; [right|left; reflexivity].
  apply str_ltb_asym. exact E.
Qed.

(** ** The insertion sort *)

Section isort_facts.
Context {A : Type} (ltb : A -> A -> bool).

Hypothesis ltb_asym : forall x y, ltb x y = true -> ltb y x = false.
Hypothesis le_trans :
  forall x y z, not_after ltb x y -> not_after ltb y z -> not_after ltb x z.

Lemma insert_sorted_perm (x : A) (l : list A) :
  Permutation (insert_sorted ltb x l) (x :: l).
Proof using Type.
  induction l as [|y r IH]; simpl; [reflexivity|].
  destruct (ltb y x); [|reflexivity].
  rewrite IH. apply perm_swap.
Qed.

Lemma isort_perm (l : list A) : Permutation (isort ltb l) l.
Proof using Type.
  induction l as [|x r IH]; simpl; [reflexivity|].
  rewrite insert_sorted_perm, IH. reflexivity.
Qed.

Lemma isort_length (l : list A) : length (isort ltb l) = length l.
Proof using Type. apply Permutation_length, isort_perm. Qed.

Lemma insert_sorted_strongly (x : A) (l : list A) :
  StronglySorted (not_after ltb) l ->
  StronglySorted (not_after ltb) (insert_sorted ltb x l).
Proof using ltb_asym le_trans.
  induction l as [|y r IH]; simpl; intros Hs.
  - constructor; [constructor | constructor].
  - inversion Hs as [|? ? Hr Hall]; subst.
    destruct (ltb y x) eqn:E.
    + constructor; [apply IH; exact Hr|].
      apply Forall_forall. intros z Hz.
      rewrite insert_sorted_perm in Hz.
      apply elem_of_cons in Hz as [->|Hz]; [apply ltb_asym; exact E|].
      rewrite Forall_forall in Hall. apply Hall. exact Hz.
    + constructor; [exact Hs|].
      constructor; [exact E|].
      apply Forall_forall. intros z Hz. rewrite Forall_forall in Hall.
      apply (le_trans x y z); [exact E | apply Hall; exact Hz].
Qed.

Lemma isort_strongly_sorted (l : list A) :
  StronglySorted (not_after ltb) (isort ltb l).
Proof using ltb_asym le_trans.
  induction l as [|x r IH]; simpl; [constructor|].
  apply insert_sorted_strongly. exact IH.
Qed.

(** Stability: the items of one class of equivalent items keep their
    order. *)
Lemma insert_sorted_stable (P : A -> bool) (x : A) (l : list A) :
  (forall y z, P y = true -> P z = true -> ltb y z = false) ->
  List.filter P (insert_sorted ltb x l) = List.filter P (x :: l).
Proof using Type.
  intros HP. induction l as [|y r IH]; [reflexivity|].
  cbn [insert_sorted]. destruct (ltb y x) eqn:E; [|reflexivity].
  cbn [List.filter] in *. rewrite IH.
  destruct (P x) eqn:Px, (P y) eqn:Py; try reflexivity.
  rewrite (HP y x Py Px) in E. discriminate.
Qed.

Lemma isort_stable (P : A -> bool) (l : list A) :
  (forall y z, P y = true -> P z = true -> ltb y z = false) ->
  List.filter P (isort ltb l) = List.filter P l.
Proof using Type.
  intros HP. induction l as [|x r IH]; [reflexivity|].
  cbn [isort]. rewrite insert_sorted_stable by exact HP.
  cbn [List.filter]. rewrite IH. reflexivity.
Qed.
End isort_facts.


Lemma sort_files_strongly_sorted (l : list pystr) :
  StronglySorted str_le (isort str_ltb l).
Proof.
  apply (isort_strongly_sorted str_ltb).
  - intros x y. apply str_ltb_asym.
  - intros x y z. apply str_le_trans.
Qed.

(** ** Gallery listing *)

Lemma endswith_spec (s suffix : pystr) :
  endswith s suffix = true <-> exists stem, s = stem ++ suffix.
Proof.
  unfold endswith. rewrite bool_decide_eq_true. split.
  - intros H. exists (take (length s - length suffix) s).
    rewrite <- H at 2. symmetry. apply take_drop.
  - intros [stem ->]. rewrite length_app.
    replace (length stem + length suffix - length suffix)%nat with (length stem) by lia.
    apply drop_app_length.
Qed.

Lemma is_image_spec (f : pystr) : is_image f = true <-> has_image_extension f.
Proof.
  unfold is_image, endswith_any, has_image_extension, ends_with_ignoring_case.
  rewrite existsb_exists. split.
  - intros (ext & Hin & Hend). exists ext. split; [exact Hin|].
    apply endswith_spec in Hend as [stem Hstem].
    exists (take (length stem) f), (drop (length stem) f). split.
    + symmetry. apply take_drop.
    + unfold lower in *. rewrite <- skipn_map, Hstem. apply drop_app_length.
  - intros (ext & Hin & stem & tail & -> & Hlow). exists ext. split; [exact Hin|].
    apply endswith_spec. exists (lower stem). unfold lower in *.
    rewrite map_app, Hlow. reflexivity.
Qed.

Lemma gallery_files_ok (ev : env) (names : list pystr) :
  listing ev = Ok names ->
  gallery_files ev = Ok (isort str_ltb (List.filter is_image names)).
Proof. unfold gallery_files. intros ->. reflexivity. Qed.

Lemma gallery_files_error (ev : env) (e : exn) :
  listing ev = Raise e -> gallery_files ev = Ok [].
Proof. unfold gallery_files. intros ->. reflexivity. Qed.


(** C7. A gallery handler keeps exactly the listed names that end, letter
    case ignored, in .png, .jpg, .jpeg or .gif, sorts them, and maps each to
    the URL of the static file; the listing b.png, a.jpg, c.txt gives the
    URLs of a.jpg and b.png in that order; when the directory cannot be
    listed the page is rendered with no image. *)
Theorem gallery_lists_sorted_images
    (dir template title : string) (ev : env) (st : state) :
  (forall names, listing ev = Ok names ->
     exists files,
       gallery dir template title ev st
       = Ok (Render template
               [("title", CtxStr title);
                ("images",
                 CtxUrls (map (fun f => UrlFor "static" (Some (py dir ++ f))) files))],
             st)
       /\ (forall f, In f files <-> In f names /\ has_image_extension f)
       /\ Permutation files (List.filter is_image names)
       /\ StronglySorted str_le files)
  /\ (listing ev = Ok [py "b.png"; py "a.jpg"; py "c.txt"] ->
      veterans_gallery ev st
      = Ok (Render "veterans.html"
              [("title", CtxStr "Veterans");
               ("images",
                CtxUrls [UrlFor "static" (Some (py "images/veterans/a.jpg"));
                         UrlFor "static" (Some (py "images/veterans/b.png"))])],
            st))
  /\ (forall e, listing ev = Raise e ->
        gallery dir template title ev st
        = Ok (Render template [("title", CtxStr title); ("images", CtxUrls [])], st)).
Proof.
  split; [|split].
  - intros names Hl. exists (isort str_ltb (List.filter is_image names)).
    split; [|split; [|split]].
    + unfold gallery. rewrite (gallery_files_ok _ _ Hl). reflexivity.
    + intros f. rewrite <- is_image_spec, <- filter_In.
      split; apply Permutation_in;
        [apply isort_perm | symmetry; apply isort_perm].
    + apply isort_perm.
    + apply sort_files_strongly_sorted.
  - intros Hl. unfold veterans_gallery, gallery.
    rewrite (gallery_files_ok _ _ Hl). vm_compute. reflexivity.
  - intros e Hl. unfold gallery. rewrite (gallery_files_error _ _ Hl). reflexivity.
Qed.

Lemma gallery_lists_sorted_images_witness :
  veterans_gallery (listing_env (Ok [py "b.png"; py "a.jpg"; py "c.txt"])) empty_state
  = Ok (Render "veterans.html"
          [("title", CtxStr "Veterans");
           ("images",
            CtxUrls [UrlFor "static" (Some (py "images/veterans/a.jpg"));
                     UrlFor "static" (Some (py "images/veterans/b.png"))])],
        empty_state)
  /\ veterans_gallery (listing_env (Raise OSError)) empty_state
     = Ok (Render "veterans.html"
             [("title", CtxStr "Veterans"); ("images", CtxUrls [])], empty_state).
Proof.
  split.
  - apply (gallery_lists_sorted_images "images/veterans/" "veterans.html" "Veterans"
             (listing_env (Ok [py "b.png"; py "a.jpg"; py "c.txt"])) empty_state).
    reflexivity.
  - apply (proj2 (proj2 (gallery_lists_sorted_images
                           "images/veterans/" "veterans.html" "Veterans"
                           (listing_env (Raise OSError)) empty_state)) OSError).
    reflexivity.
Defined.




(** ** Form validation *)

Lemma stripped_field_falsy (f : gmap string pystr) (k : string) :
  truthy (stripped_field f k) = false <-> absent_or_blank f k.
Proof.
  unfold stripped_field, form_get, absent_or_blank.
  destruct (f !! k) as [v|]; simpl.
  - case_bool_decide as Hv; simpl.
    + subst v. split; [intros _; right; exists []; auto | reflexivity].
    + rewrite negb_false_iff, bool_decide_eq_true. split.
      * intros H. right. exists v. auto.
      * intros [H|(w & Hw & H)]; [discriminate | congruence].
  - split; [intros _; left; reflexivity | reflexivity].
Qed.

Lemma stripped_field_filled (f : gmap string pystr) (k : string) :
  filled f k ->
  exists s, stripped_field f k = PyStr s /\ s <> [] /\ truthy (PyStr s) = true.
Proof.
  intros (v & Hv & Hs). exists (strip v).
  unfold stripped_field, form_get. rewrite Hv. simpl.
  case_bool_decide as Hnil; simpl.
  - subst v. exfalso. apply Hs. reflexivity.
  - split; [reflexivity|]. split; [exact Hs|].
    apply negb_true_iff, bool_decide_eq_false. exact Hs.
Qed.


(** C1. A membership submission whose name or email is absent, or empty
    after trimming, is answered with the validation message, and the
    database, so the members table too, is left as it was. *)
Theorem membership_requires_name_and_email (rq : request) (ev : env) (st : state) :
  method rq = POST ->
  absent_or_blank (form rq) "name" \/ absent_or_blank (form rq) "email" ->
  exists st',
    membership rq ev st = Ok (Redirect (UrlFor "membership" None), st')
    /\ st_flashes st' = st_flashes st ++ [(Text "Name and email are required.", "danger")]
    /\ st_db st' = st_db st
    /\ member_rows (st_db st') = member_rows (st_db st).
Proof.
  intros Hm Hblank.
  exists (flash (Text "Name and email are required.") "danger" st).
  split; [|repeat split].
  unfold membership. rewrite Hm.
  assert (negb (truthy (stripped_field (form rq) "name"))
          || negb (truthy (stripped_field (form rq) "email")) = true) as ->.
  { apply orb_true_iff. rewrite !negb_true_iff, !stripped_field_falsy. exact Hblank. }
  reflexivity.
Qed.

Lemma membership_requires_name_and_email_witness :
  exists st',
    membership (post [("name", py "   "); ("email", py "jane@example.com")])
      sample_env fresh_state
    = Ok (Redirect (UrlFor "membership" None), st')
    /\ st_flashes st' = [(Text "Name and email are required.", "danger")]
    /\ st_db st' = fresh_db
    /\ member_rows (st_db st') = [].
Proof.
  apply (membership_requires_name_and_email
           (post [("name", py "   "); ("email", py "jane@example.com")])
           sample_env fresh_state).
  - reflexivity.
  - left. right. exists (py "   "). split; reflexivity.
Defined.




(** ** Storage *)

Lemma fold_max_ge_seq (s : Z) (l : list Z) : s <= fold_right Z.max s l.
Proof. induction l as [|x l IH]; simpl; lia. Qed.

Lemma fold_max_ge_elem (s : Z) (l : list Z) :
  Forall (fun x => x <= fold_right Z.max s l) l.
Proof.
  induction l as [|x l IH]; simpl; constructor; [lia|].
  eapply Forall_impl; [exact IH|]. simpl. intros y Hy. lia.
Qed.


(** Undoes one step of a sequence of binds in a hypothesis. *)
Tactic Notation "bind_inv" hyp(H) "as" ident(x) :=
  match type of H with
  | bind ?m _ = Ok _ =>
      let E := fresh "E" x in
      destruct m as [x|] eqn:E; cbn [bind] in H; [|discriminate H]
  end.

Lemma not_null_inv (v : sqlval) (u : unit) : not_null v = Ok u -> v <> SqlNull.
Proof. destruct v; simpl; intros H; [discriminate H | discriminate | discriminate]. Qed.

Lemma insert_member_inv (fault : option exn) (now : pystr)
    (data : gmap string pyval) (d d' : db) :
  insert_member fault now data d = Ok d' ->
  exists t r,
    members d = Some t
    /\ d' = {| members := Some (Table (rows t ++ [r]) (member_id r));
               messages := messages d |}
    /\ bind_param (data !! "name") = Ok (member_name r)
    /\ bind_param (data !! "email") = Ok (member_email r)
    /\ next_rowid (map member_id (rows t)) (seq t) = Ok (member_id r).
Proof.
  unfold insert_member. intros H.
  destruct fault; [discriminate H|].
  destruct (members d) as [t|]; [|discriminate H].
  bind_inv H as name. bind_inv H as email. bind_inv H as phone.
  bind_inv H as category. bind_inv H as address. bind_inv H as age.
  bind_inv H as u1. bind_inv H as u2. bind_inv H as id. injection H as <-.
  exists t, {| member_id := id; member_name := name; member_email := email;
               member_phone := phone; member_category := category;
               member_address := address; member_age := age;
               member_joined_at := SqlText now |}.
  simpl. auto.
Qed.

Lemma insert_message_inv (fault : option exn) (now : pystr)
    (data : gmap string pyval) (d d' : db) :
  insert_message fault now data d = Ok d' ->
  exists t r,
    messages d = Some t
    /\ d' = {| members := members d;
               messages := Some (Table (rows t ++ [r]) (message_id r)) |}
    /\ bind_param (data !! "name") = Ok (message_name r)
    /\ bind_param (data !! "email") = Ok (message_email r)
    /\ next_rowid (map message_id (rows t)) (seq t) = Ok (message_id r).
Proof.
  unfold insert_message. intros H.
  destruct fault; [discriminate H|].
  destruct (messages d) as [t|]; [|discriminate H].
  bind_inv H as name. bind_inv H as email. bind_inv H as subject.
  bind_inv H as message. bind_inv H as u1. bind_inv H as u2. bind_inv H as id.
  injection H as <-.
  exists t, {| message_id := id; message_name := name; message_email := email;
               message_subject := subject; message_message := message;
               message_sent_at := SqlText now |}.
  simpl. auto.
Qed.

Lemma stripped_field_truthy (f : gmap string pystr) (k : string) :
  truthy (stripped_field f k) = true ->
  exists s, stripped_field f k = PyStr s /\ s <> [].
Proof.
  unfold stripped_field, form_get. destruct (f !! k) as [v|]; [|discriminate].
  destruct (truthy (PyStr v)); [|discriminate].
  simpl. rewrite negb_true_iff, bool_decide_eq_false. intros H.
  exists (strip v). split; [reflexivity | exact H].
Qed.

Lemma bound_text (s : pystr) (v : sqlval) :
  s <> [] -> bind_param (Some (PyStr s)) = Ok v -> nonempty_text v.
Proof. simpl. intros Hs H. injection H as <-. exists s. auto. Qed.

Lemma bind_form_get (f : gmap string pystr) (k : string) :
  bind_param (Some (form_get f k))
  = Ok (match f !! k with Some v => SqlText v | None => SqlNull end).
Proof. unfold form_get. destruct (f !! k); reflexivity. Qed.

(** Whatever a membership request does, it only appends member rows, and
    each row it appends has a name and an email. *)
Lemma membership_appends (rq : request) (ev : env) (st st' : state) (resp : response) :
  membership rq ev st = Ok (resp, st') ->
  exists new,
    member_rows (st_db st') = member_rows (st_db st) ++ new
    /\ Forall named_member new
    /\ message_rows (st_db st') = message_rows (st_db st).
Proof.
  unfold membership. intros H.
  assert (forall s, st_db s = st_db st ->
          exists new, member_rows (st_db s) = member_rows (st_db st) ++ new
                      /\ Forall named_member new
                      /\ message_rows (st_db s) = message_rows (st_db st)) as Hsame.
  { intros s ->. exists []. rewrite app_nil_r. auto. }
  destruct (method rq); [injection H as <- <-; apply Hsame; reflexivity|].
  destruct (truthy (stripped_field (form rq) "name")) eqn:Hn;
    [|injection H as <- <-; apply Hsame; reflexivity].
  destruct (truthy (stripped_field (form rq) "email")) eqn:He;
    [|injection H as <- <-; apply Hsame; reflexivity].
  cbn [negb orb] in H.
  destruct (int_field (form rq) "age") as [age|e];
    [|injection H as <- <-; apply Hsame; reflexivity].
  cbn [bind] in H.
  destruct (insert_member _ _ _ _) as [d|e] eqn:Hins;
    [|injection H as <- <-; apply Hsame; reflexivity].
  injection H as <- <-.
  apply insert_member_inv in Hins as (t & r & Ht & -> & Hname & Hemail & _).
  apply stripped_field_truthy in Hn as (n & Hn & Hnn).
  apply stripped_field_truthy in He as (m & He & Hmm).
  rewrite lookup_insert_eq, Hn in Hname.
  rewrite lookup_insert_ne, lookup_insert_eq, He in Hemail by discriminate.
  exists [r]. unfold member_rows, message_rows. simpl. rewrite Ht.
  split; [reflexivity|]. split; [|reflexivity].
  constructor; [|constructor].
  split; [exact (bound_text n _ Hnn Hname) | exact (bound_text m _ Hmm Hemail)].
Qed.

Lemma contact_appends (rq : request) (ev : env) (st st' : state) (resp : response) :
  contact rq ev st = Ok (resp, st') ->
  exists new,
    message_rows (st_db st') = message_rows (st_db st) ++ new
    /\ Forall named_message new
    /\ member_rows (st_db st') = member_rows (st_db st).
Proof.
  unfold contact. intros H.
  assert (forall s, st_db s = st_db st ->
          exists new, message_rows (st_db s) = message_rows (st_db st) ++ new
                      /\ Forall named_message new
                      /\ member_rows (st_db s) = member_rows (st_db st)) as Hsame.
  { intros s ->. exists []. rewrite app_nil_r. auto. }
  destruct (method rq); [injection H as <- <-; apply Hsame; reflexivity|].
  destruct (truthy (stripped_field (form rq) "name")) eqn:Hn;
    [|injection H as <- <-; apply Hsame; reflexivity].
  destruct (truthy (stripped_field (form rq) "email")) eqn:He;
    [|injection H as <- <-; apply Hsame; reflexivity].
  cbn [negb orb] in H.
  destruct (insert_message _ _ _ _) as [d|e] eqn:Hins;
    [|injection H as <- <-; apply Hsame; reflexivity].
  injection H as <- <-.
  apply insert_message_inv in Hins as (t & r & Ht & -> & Hname & Hemail & _).
  apply stripped_field_truthy in Hn as (n & Hn & Hnn).
  apply stripped_field_truthy in He as (m & He & Hmm).
  rewrite lookup_insert_eq, Hn in Hname.
  rewrite lookup_insert_ne, lookup_insert_eq, He in Hemail by discriminate.
  exists [r]. unfold member_rows, message_rows. simpl. rewrite Ht.
  split; [reflexivity|]. split; [|reflexivity].
  constructor; [|constructor].
  split; [exact (bound_text n _ Hnn Hname) | exact (bound_text m _ Hmm Hemail)].
Qed.


Lemma init_db_creates_tables (d d' : db) :
  init_db None d = Ok d' ->
  member_rows d' = member_rows d /\ message_rows d' = message_rows d
  /\ is_Some (members d') /\ is_Some (messages d').
Proof.
  unfold init_db, member_rows, message_rows. intros H. injection H as <-. simpl.
  destruct (members d), (messages d); simpl; repeat split; eauto.
Qed.



(** ** The events resource *)

(** C5. When the events file is absent, cannot be read or does not parse,
    loading raises nothing, the in-memory list is the built-in list of three
    events, and /api/events answers with exactly that list. *)
Theorem events_fallback_to_default (f : events_file) (st : state) :
  file_exists f = false \/ (exists e, file_json f = Raise e) ->
  load_events f = Ok DEFAULT_EVENTS
  /\ (exists e1 e2 e3, DEFAULT_EVENTS = PyList [e1; e2; e3])
  /\ forall EVENTS, load_events f = Ok EVENTS ->
                    api_events EVENTS st = Ok (Json DEFAULT_EVENTS, st).
Proof.
  intros H.
  assert (load_events f = Ok DEFAULT_EVENTS) as Hload.
  { unfold load_events. destruct H as [->|[e He]]; [reflexivity|].
    rewrite He. destruct (file_exists f); reflexivity. }
  split; [exact Hload|]. split.
  - unfold DEFAULT_EVENTS. eexists _, _, _. reflexivity.
  - intros EVENTS HE. rewrite Hload in HE. injection HE as <-. reflexivity.
Qed.

Lemma events_fallback_to_default_witness :
  (load_events {| file_exists := false; file_json := Raise OSError |} = Ok DEFAULT_EVENTS
   /\ load_events {| file_exists := true; file_json := Raise OSError |} = Ok DEFAULT_EVENTS
   /\ load_events {| file_exists := true; file_json := Raise JSONDecodeError |}
      = Ok DEFAULT_EVENTS)
  /\ api_events DEFAULT_EVENTS empty_state = Ok (Json DEFAULT_EVENTS, empty_state).
Proof.
  split; [split; [|split]|].
  - apply (events_fallback_to_default
             {| file_exists := false; file_json := Raise OSError |} empty_state).
    left. reflexivity.
  - apply (events_fallback_to_default
             {| file_exists := true; file_json := Raise OSError |} empty_state).
    right. exists OSError. reflexivity.
  - apply (events_fallback_to_default
             {| file_exists := true; file_json := Raise JSONDecodeError |} empty_state).
    right. exists JSONDecodeError. reflexivity.
  - apply (events_fallback_to_default
             {| file_exists := true; file_json := Raise JSONDecodeError |} empty_state).
    + right. exists JSONDecodeError. reflexivity.
    + reflexivity.
Defined.

(** C6. When the events file exists and holds a JSON array, /api/events
    answers with that array: the same items in the same order, none left
    out. *)
Theorem api_events_returns_file_array (f : events_file) (items : list pyval) (st : state) :
  file_exists f = true -> file_json f = Ok (PyList items) ->
  load_events f = Ok (PyList items)
  /\ forall EVENTS, load_events f = Ok EVENTS ->
                    api_events EVENTS st = Ok (Json (PyList items), st).
Proof.
  intros Hex Hjson.
  assert (load_events f = Ok (PyList items)) as Hload
      by (unfold load_events; rewrite Hex, Hjson; reflexivity).
  split; [exact Hload|].
  intros EVENTS HE. rewrite Hload in HE. injection HE as <-. reflexivity.
Qed.

Lemma api_events_returns_file_array_witness :
  api_events (PyList [PyDict [(py "title", PyStr (py "Open")); (py "start", PyStr (py "2025-11-02"))];
                      PyDict [(py "title", PyStr (py "Camp")); (py "start", PyStr (py "2025-01-15"))]])
    empty_state
  = Ok (Json (PyList [PyDict [(py "title", PyStr (py "Open")); (py "start", PyStr (py "2025-11-02"))];
                      PyDict [(py "title", PyStr (py "Camp")); (py "start", PyStr (py "2025-01-15"))]]),
        empty_state).
Proof.
  apply (api_events_returns_file_array
           {| file_exists := true;
              file_json :=
                Ok (PyList [PyDict [(py "title", PyStr (py "Open"));
                                    (py "start", PyStr (py "2025-11-02"))];
                            PyDict [(py "title", PyStr (py "Camp"));
                                    (py "start", PyStr (py "2025-01-15"))]]) |}
           _ empty_state); reflexivity.
Defined.

(** C9. The loader falls back only when the file is absent or an exception
    is raised: whatever value the file parses to, array or not, becomes the
    in-memory events value and is what /api/events answers with. *)
Theorem events_loader_accepts_any_json (f : events_file) (v : pyval) (st : state) :
  file_exists f = true -> file_json f = Ok v ->
  load_events f = Ok v
  /\ forall EVENTS, load_events f = Ok EVENTS -> api_events EVENTS st = Ok (Json v, st).
Proof.
  intros Hex Hjson.
  assert (load_events f = Ok v) as Hload
      by (unfold load_events; rewrite Hex, Hjson; reflexivity).
  split; [exact Hload|].
  intros EVENTS HE. rewrite Hload in HE. injection HE as <-. reflexivity.
Qed.

Lemma events_loader_accepts_any_json_witness :
  load_events {| file_exists := true;
                 file_json := Ok (PyDict [(py "events", PyList [])]) |}
  = Ok (PyDict [(py "events", PyList [])])
  /\ load_events {| file_exists := true; file_json := Ok (PyStr (py "soon")) |}
     = Ok (PyStr (py "soon"))
  /\ load_events {| file_exists := true; file_json := Ok (PyInt 7) |} = Ok (PyInt 7).
Proof.
  split; [|split].
  - apply (events_loader_accepts_any_json
             {| file_exists := true;
                file_json := Ok (PyDict [(py "events", PyList [])]) |} _ empty_state);
      reflexivity.
  - apply (events_loader_accepts_any_json
             {| file_exists := true; file_json := Ok (PyStr (py "soon")) |} _ empty_state);
      reflexivity.
  - apply (events_loader_accepts_any_json
             {| file_exists := true; file_json := Ok (PyInt 7) |} _ empty_state);
      reflexivity.
Defined.

Lemma load_events_total (f : events_file) : exists v, load_events f = Ok v.
Proof.
  unfold load_events. destruct (file_exists f); [|eauto].
  destruct (file_json f); simpl; eauto.
Qed.

(** ** The home page *)

Lemma index_keeps_state (EVENTS : pyval) (st st' : state) (resp : response) :
  index EVENTS st = Ok (resp, st') -> st' = st.
Proof.
  unfold index. destruct news_preview; [|discriminate].
  destruct (events_preview EVENTS); [|discriminate].
  simpl. intros H. injection H as _ <-. reflexivity.
Qed.

(** C3, on the built-in news list. The preview is the first three posts of
    the list, which is not in date order: the post of 2023-12-27 is shown
    while the post of 2024-12-16, last in the list, is left out, so the
    preview is not the three most recent posts. *)
Theorem index_news_preview_not_most_recent :
  exists all x y,
    SAMPLE_NEWS = PyList all
    /\ news_preview = Ok (PyList (take 3 all))
    /\ In x (take 3 all) /\ In y all /\ ~ In y (take 3 all)
    /\ str_field "date" x = py "2023-12-27"
    /\ str_field "date" y = py "2024-12-16"
    /\ str_ltb (str_field "date" x) (str_field "date" y) = true
    /\ ~ most_recent 3 all (take 3 all).
Proof.
  unfold SAMPLE_NEWS, news_preview, slice_to.
  match goal with
  | |- exists all x y, PyList [?a; ?b; ?c; ?d; ?e; ?f] = PyList all /\ _ =>
      exists [a; b; c; d; e; f], c, f
  end.
  split; [reflexivity|]. split; [reflexivity|].
  assert (forall a b : pyval, a = b -> str_field "date" a = str_field "date" b) as Hdate
      by (intros a b ->; reflexivity).
  match goal with
  | |- In _ ?shown /\ In _ _ /\ ~ In ?y ?shown /\ _ =>
      assert (~ In y shown) as Hout
  end.
  { cbn [take firstn In].
    intros [H|[H|[H|[]]]]; apply Hdate in H; vm_compute in H; discriminate H. }
  split; [cbn [take firstn In]; right; right; left; reflexivity|].
  split; [cbn [In]; do 5 right; left; reflexivity|].
  split; [exact Hout|].
  split; [vm_compute; reflexivity|].
  split; [vm_compute; reflexivity|].
  split; [vm_compute; reflexivity|].
  intros (_ & _ & Hrecent).
  match type of Hout with
  | ~ In ?y (take 3 (_ :: _ :: ?x :: _)) =>
      assert (str_le (str_field "date" y) (str_field "date" x)) as Hle
  end.
  { apply Hrecent; [| |exact Hout].
    - cbn [take firstn In]. right; right; left; reflexivity.
    - cbn [In]. do 5 right; left; reflexivity. }
  vm_compute in Hle. discriminate Hle.
Qed.

Lemma start_ltb_asym (x y : pyval) : start_ltb x y = true -> start_ltb y x = false.
Proof. apply str_ltb_asym. Qed.

Lemma start_le_trans (x y z : pyval) : start_le x y -> start_le y z -> start_le x z.
Proof. apply str_le_trans. Qed.

Lemma sort_by_start_strongly_sorted (l : list pyval) :
  StronglySorted start_le (isort start_ltb l).
Proof.
  apply (isort_strongly_sorted start_ltb).
  - exact start_ltb_asym.
  - exact start_le_trans.
Qed.

Lemma start_keys_dated (evs : list pyval) :
  Forall has_start_date evs -> start_keys evs = Ok (map with_start evs).
Proof.
  unfold start_keys. induction 1 as [|e evs [s He] _ IH]; [reflexivity|].
  cbn [mapM map]. rewrite IH, He. cbn [bind].
  unfold with_start, str_field. rewrite He. reflexivity.
Qed.

Lemma start_keys_undated (evs : list pyval) :
  Exists lacks_start_date evs -> exists x, start_keys evs = Raise x.
Proof.
  unfold start_keys. induction 1 as [e evs [x He]|e evs _ [x IH]]; cbn [mapM].
  - rewrite He. eauto.
  - rewrite IH. destruct (getitem e (py "start")); cbn [bind]; eauto.
Qed.

Lemma insert_keyed_dated (x : pyval) (l : list pyval) :
  insert_keyed (with_start x) (map with_start l)
  = Ok (map with_start (insert_sorted start_ltb x l)).
Proof.
  induction l as [|y r IH]; [reflexivity|].
  cbn [map insert_keyed insert_sorted with_start fst py_lt bind].
  fold (with_start x). fold (start_ltb y x). destruct (start_ltb y x); [|reflexivity].
  rewrite IH. reflexivity.
Qed.

Lemma sort_keyed_dated (l : list pyval) :
  sort_keyed (map with_start l) = Ok (map with_start (isort start_ltb l)).
Proof.
  induction l as [|x r IH]; [reflexivity|].
  cbn [map sort_keyed isort]. rewrite IH. cbn [bind]. apply insert_keyed_dated.
Qed.

Lemma snd_with_start (l : list pyval) : map snd (map with_start l) = l.
Proof. induction l as [|x r IH]; simpl; [reflexivity | rewrite IH; reflexivity]. Qed.

Lemma events_sorted_list (evs : list pyval) :
  events_sorted (PyList evs)
  = Ok (PyList match start_keys evs with
               | Ok keyed =>
                   match sort_keyed keyed with
                   | Ok s => map snd s
                   | Raise _ => evs
                   end
               | Raise _ => evs
               end).
Proof.
  unfold events_sorted, sorted, start_keys. cbn [py_iter bind].
  destruct (mapM _ evs) as [keyed|e]; [|reflexivity]. cbn [bind].
  destruct (sort_keyed keyed); reflexivity.
Qed.

Lemma events_preview_list (evs sorted_evs : list pyval) :
  events_sorted (PyList evs) = Ok (PyList sorted_evs) ->
  events_preview (PyList evs) = Ok (PyList (take 6 sorted_evs)).
Proof.
  unfold events_preview. intros ->. cbn [bind truthy].
  case_bool_decide as Hnil; [subst; reflexivity | reflexivity].
Qed.

(** C4. For every events list the home page is rendered with an event
    preview of at most six items. When every event has a start date, the
    preview is the first six of the events in ascending order of start date
    (equal dates in list order): every event left out starts no sooner than
    the six shown. When an event has no start date, or a comparison of two
    start values raises, the preview is the first six events in list
    order. *)
Theorem events_preview_at_most_six_sorted (evs : list pyval) (st : state) :
  exists shown,
    events_preview (PyList evs) = Ok (PyList shown)
    /\ (exists news,
          index (PyList evs) st
          = Ok (Render "index.html" [("title", CtxStr "Home");
                                     ("news", CtxPy news);
                                     ("events", CtxPy (PyList shown))], st))
    /\ (length shown <= 6)%nat
    /\ (Forall has_start_date evs ->
        shown = take 6 (isort start_ltb evs)
        /\ length shown = Nat.min 6 (length evs)
        /\ StronglySorted start_le shown
        /\ exists rest,
             Permutation (shown ++ rest) evs
             /\ StronglySorted start_le (shown ++ rest)
             /\ Forall (fun late => Forall (fun soon => start_le soon late) shown) rest)
    /\ (Exists lacks_start_date evs -> shown = take 6 evs)
    /\ (comparison_fails evs -> shown = take 6 evs).
Proof.
  pose proof (events_sorted_list evs) as Hsorted.
  set (sorted_evs := match start_keys evs with
                     | Ok keyed => match sort_keyed keyed with
                                   | Ok s => map snd s
                                   | Raise _ => evs
                                   end
                     | Raise _ => evs
                     end) in *.
  pose proof (events_preview_list evs sorted_evs Hsorted) as Hpreview.
  exists (take 6 sorted_evs).
  split; [exact Hpreview|]. split; [|split; [|split; [|split]]].
  - unfold index. rewrite Hpreview. unfold news_preview, SAMPLE_NEWS, slice_to.
    cbn [bind]. eexists. reflexivity.
  - rewrite length_take. lia.
  - intros Hdated.
    assert (sorted_evs = isort start_ltb evs) as ->.
    { unfold sorted_evs. rewrite (start_keys_dated evs Hdated), sort_keyed_dated.
      apply snd_with_start. }
    pose proof (sort_by_start_strongly_sorted evs) as Hs.
    rewrite <- (take_drop 6 (isort start_ltb evs)) in Hs.
    split; [reflexivity|]. split; [|split].
    + rewrite length_take, isort_length. reflexivity.
    + eapply StronglySorted_app_1_l. exact Hs.
    + exists (drop 6 (isort start_ltb evs)). split; [|split].
      * rewrite take_drop. apply isort_perm.
      * exact Hs.
      * apply Forall_forall. intros late Hlate. apply Forall_forall. intros soon Hsoon.
        eapply StronglySorted_app_1_elem_of; eassumption.
  - intros Hundated. destruct (start_keys_undated evs Hundated) as [x Hx].
    unfold sorted_evs. rewrite Hx. reflexivity.
  - intros (keyed & e & Hkeys & Hfail).
    unfold sorted_evs. rewrite Hkeys, Hfail. reflexivity.
Qed.

Lemma py_lt_same_kind (a b : pyval) (r : bool) :
  py_lt a b = Ok r -> kind_of a = kind_of b /\ kind_of b <> KUnordered.
Proof.
  destruct a, b; simpl; intros H; try discriminate H; split; try reflexivity;
    discriminate.
Qed.

Lemma insert_keyed_inv (x : pyval * pyval) (l s : list (pyval * pyval)) :
  insert_keyed x l = Ok s ->
  Permutation s (x :: l)
  /\ match l with
     | [] => True
     | y :: _ => kind_of (fst y) = kind_of (fst x) /\ kind_of (fst x) <> KUnordered
     end.
Proof.
  revert s. induction l as [|y r IH]; intros s H.
  - injection H as <-. split; [reflexivity | exact I].
  - cbn [insert_keyed] in H.
    destruct (py_lt (fst y) (fst x)) as [b|] eqn:Hlt; [|discriminate H].
    cbn [bind] in H. split; [|eapply py_lt_same_kind; exact Hlt].
    destruct b.
    + destruct (insert_keyed x r) as [r'|] eqn:Hr; [|discriminate H].
      injection H as <-. destruct (IH r' eq_refl) as [Hp _].
      rewrite Hp. apply perm_swap.
    + injection H as <-. reflexivity.
Qed.

(** A sort that succeeds has only seen keys of one kind and, among several
    keys, none that cannot be compared at all. *)
Lemma sort_keyed_inv (l s : list (pyval * pyval)) :
  sort_keyed l = Ok s ->
  Permutation s l
  /\ (forall x y, In x l -> In y l -> kind_of (fst x) = kind_of (fst y))
  /\ ((2 <= length l)%nat -> forall x, In x l -> kind_of (fst x) <> KUnordered).
Proof.
  revert s. induction l as [|a r IH]; intros s H.
  - injection H as <-. split; [reflexivity|]. split; [intros x y [] | intros _ x []].
  - cbn [sort_keyed] in H.
    destruct (sort_keyed r) as [s0|] eqn:Hr; [|discriminate H]. cbn [bind] in H.
    destruct (IH s0 eq_refl) as (Hp & Hk & _).
    destruct (insert_keyed_inv a s0 s H) as [Hp' Hhead].
    split; [rewrite Hp', Hp; reflexivity|].
    assert (forall x, In x r ->
                      kind_of (fst x) = kind_of (fst a)
                      /\ kind_of (fst a) <> KUnordered) as Ha.
    { intros x Hx. destruct s0 as [|y s0].
      - apply Permutation_nil in Hp. subst r. destruct Hx.
      - destruct Hhead as [Hhead Hord]. split; [|exact Hord].
        rewrite <- Hhead. apply Hk; [exact Hx|].
        apply (Permutation_in _ Hp). left. reflexivity. }
    split.
    + intros x y [<-|Hx] [<-|Hy].
      * reflexivity.
      * symmetry. apply Ha. exact Hy.
      * apply Ha. exact Hx.
      * apply Hk; assumption.
    + intros Hlen x Hx. destruct r as [|b r]; [simpl in Hlen; lia|].
      destruct (Ha b (or_introl eq_refl)) as [_ Hord].
      destruct Hx as [<-|Hx]; [exact Hord|].
      destruct (Ha x Hx) as [-> _]. exact Hord.
Qed.

Lemma start_keys_all (evs : list pyval) :
  Forall (fun e => exists k, getitem e (py "start") = Ok k) evs ->
  exists keyed,
    start_keys evs = Ok keyed
    /\ length keyed = length evs
    /\ forall e k, In e evs -> getitem e (py "start") = Ok k -> In (k, e) keyed.
Proof.
  unfold start_keys. induction 1 as [|e evs [k He] _ (keyed & IH & Hlen & Hin)].
  - exists []. split; [reflexivity|]. split; [reflexivity | intros e k []].
  - exists ((k, e) :: keyed). cbn [mapM]. rewrite He, IH.
    split; [reflexivity|]. split; [simpl; rewrite Hlen; reflexivity|].
    intros e' k' [<-|H'] Hk'.
    + left. congruence.
    + right. apply Hin; assumption.
Qed.

(** Start values of two different kinds, a string and a number say, make
    the comparison fail, whichever pairs the sort compares. *)
Lemma mixed_kinds_comparison_fails (evs : list pyval) (a b : pyval) (ka kb : pyval) :
  Forall (fun e => exists k, getitem e (py "start") = Ok k) evs ->
  In a evs -> In b evs ->
  getitem a (py "start") = Ok ka -> getitem b (py "start") = Ok kb ->
  kind_of ka <> kind_of kb ->
  comparison_fails evs.
Proof.
  intros Hall Ha Hb Hka Hkb Hne. unfold comparison_fails.
  destruct (start_keys_all evs Hall) as (keyed & Hkeys & _ & Hin).
  exists keyed. destruct (sort_keyed keyed) as [s|e] eqn:Hs; [|eauto].
  destruct (sort_keyed_inv keyed s Hs) as (_ & Hk & _).
  exfalso. apply Hne.
  apply (Hk (ka, a) (kb, b)); apply Hin; assumption.
Qed.

(** So does, among two events or more, a start value that is [None] (a JSON
    null) or a dictionary. *)
Lemma unordered_start_comparison_fails (evs : list pyval) (a : pyval) (ka : pyval) :
  Forall (fun e => exists k, getitem e (py "start") = Ok k) evs ->
  (2 <= length evs)%nat ->
  In a evs -> getitem a (py "start") = Ok ka -> kind_of ka = KUnordered ->
  comparison_fails evs.
Proof.
  intros Hall Hlen Ha Hka Hkind. unfold comparison_fails.
  destruct (start_keys_all evs Hall) as (keyed & Hkeys & Hlen' & Hin).
  exists keyed. destruct (sort_keyed keyed) as [s|e] eqn:Hs; [|eauto].
  destruct (sort_keyed_inv keyed s Hs) as (_ & _ & Hord).
  exfalso. rewrite <- Hlen' in Hlen.
  apply (Hord Hlen (ka, a)); [apply Hin; assumption | exact Hkind].
Qed.

Lemma sort_by_start_stable (d : pystr) (evs : list pyval) :
  List.filter (fun e => bool_decide (str_field "start" e = d)) (isort start_ltb evs)
  = List.filter (fun e => bool_decide (str_field "start" e = d)) evs.
Proof.
  apply isort_stable. intros y z Hy Hz.
  apply bool_decide_eq_true in Hy, Hz. unfold start_ltb. rewrite Hy, Hz.
  apply str_ltb_irrefl.
Qed.

Lemma events_preview_at_most_six_sorted_witness :
  events_preview (PyList dated_events)
  = Ok (PyList [event "Camp" "2025-01-15"; event "Course" "2025-02-11";
                event "Trials" "2025-03-09"; event "Clinic" "2025-06-01";
                event "League" "2025-06-01"; event "Open" "2025-11-02"])
  /\ events_preview (PyList undated_events) = Ok (PyList undated_events)
  /\ events_preview (PyList mixed_events) = Ok (PyList mixed_events).
Proof.
  split; [|split].
  - destruct (events_preview_at_most_six_sorted dated_events empty_state)
      as (shown & -> & _ & _ & Hdated & _).
    destruct Hdated as [-> _]; [|reflexivity].
    repeat constructor; eexists; reflexivity.
  - destruct (events_preview_at_most_six_sorted undated_events empty_state)
      as (shown & -> & _ & _ & _ & Hundated & _).
    rewrite Hundated; [reflexivity|].
    apply Exists_cons_tl, Exists_cons_hd. eexists. reflexivity.
  - destruct (events_preview_at_most_six_sorted mixed_events empty_state)
      as (shown & -> & _ & _ & _ & _ & Hfails).
    rewrite Hfails; [reflexivity|].
    eexists _, _. split; reflexivity.
Defined.

(** ** The handlers answer every request *)

Lemma membership_total (rq : request) (ev : env) (st : state) :
  exists resp st', membership rq ev st = Ok (resp, st').
Proof.
  unfold membership. destruct (method rq); [eauto|].
  destruct (negb _ || negb _); cbn [bind]; [eauto|].
  destruct (int_field _ _); cbn [bind try_except]; [|eauto].
  destruct (insert_member _ _ _ _); cbn [bind try_except]; eauto.
Qed.

Lemma contact_total (rq : request) (ev : env) (st : state) :
  exists resp st', contact rq ev st = Ok (resp, st').
Proof.
  unfold contact. destruct (method rq); [eauto|].
  destruct (negb _ || negb _); cbn [bind]; [eauto|].
  destruct (insert_message _ _ _ _); cbn [bind try_except]; eauto.
Qed.

Lemma gallery_total (dir template title : string) (ev : env) (st : state) :
  exists resp, gallery dir template title ev st = Ok (resp, st).
Proof.
  unfold gallery, gallery_files. destruct (listing ev); cbn [bind try_except]; eauto.
Qed.

(** A complete membership form is stored, the age as an integer. *)
Example membership_stores_valid_submission :
  exists r st',
    membership (post [("name", py "Jane Doe"); ("email", py "jane@example.com");
                      ("age", py "30")]) sample_env fresh_state
    = Ok (Redirect (UrlFor "membership" None), st')
    /\ member_rows (st_db st') = [r]
    /\ member_id r = 1
    /\ member_name r = SqlText (py "Jane Doe")
    /\ member_email r = SqlText (py "jane@example.com")
    /\ member_age r = SqlInteger 30
    /\ member_joined_at r = SqlText (clock sample_env)
    /\ st_flashes st'
       = [(Text "Thank you for registering! We will contact you soon.", "success")].
Proof. eexists _, _. repeat split. Qed.

(** Without the tables that [init_db] creates, a valid submission is
    answered with the storage error and nothing is stored. *)
Example contact_without_tables :
  contact (post [("name", py "Jane Doe"); ("email", py "jane@example.com")])
    sample_env empty_state
  = Ok (Redirect (UrlFor "contact" None),
        flash (Formatted "Error sending your message: " OperationalError) "danger"
          empty_state).
Proof. reflexivity. Qed.

(** * Further properties of the code *)

(** ** The storage layer *)

Lemma next_rowid_inv (ids : list Z) (s id : Z) :
  next_rowid ids s = Ok id ->
  id = fold_right Z.max s ids + 1 /\ id <= max_rowid
  /\ s < id /\ Forall (fun x => x < id) ids.
Proof.
  unfold next_rowid.
  destruct (Z.ltb_spec (fold_right Z.max s ids) max_rowid) as [Hlt|]; [|discriminate].
  intros H. injection H as <-. split; [reflexivity|]. split; [lia|].
  split; [pose proof (fold_max_ge_seq s ids); lia|].
  eapply Forall_impl; [apply (fold_max_ge_elem s)|]. intros x Hx.
  cbv beta in Hx |- *. lia.
Qed.

(** X1. [init_db] only adds what is missing: tables that exist keep their
    rows and their sequence, and running it a second time changes nothing. *)
Theorem init_db_idempotent (d d1 : db) :
  init_db None d = Ok d1 ->
  init_db None d1 = Ok d1
  /\ is_Some (members d1) /\ is_Some (messages d1)
  /\ member_rows d1 = member_rows d /\ message_rows d1 = message_rows d
  /\ (forall t, members d = Some t -> members d1 = Some t)
  /\ (forall t, messages d = Some t -> messages d1 = Some t).
Proof.
  unfold init_db, member_rows, message_rows. intros H. injection H as <-. simpl.
  destruct (members d) as [tm|], (messages d) as [tc|]; simpl;
    repeat split; eauto; intros t Ht; congruence.
Qed.

Lemma init_db_idempotent_witness :
  init_db None fresh_db = Ok fresh_db
  /\ init_db None {| members := Some (Table [] 7); messages := None |}
     = Ok {| members := Some (Table [] 7); messages := Some (Table [] 0) |}.
Proof.
  split.
  - apply (init_db_idempotent empty_db fresh_db). reflexivity.
  - reflexivity.
Defined.

(** X2. Whatever dictionary it is given, a call of [insert_member] that
    returns has appended exactly one row, after the rows already there: its
    id is above every id in the table and above the stored sequence, its
    name and email are not NULL, and the messages table is untouched. *)
Theorem insert_member_appends_one_row
    (fault : option exn) (now : pystr) (data : gmap string pyval) (d d' : db) :
  insert_member fault now data d = Ok d' ->
  exists t r,
    members d = Some t
    /\ members d' = Some (Table (rows t ++ [r]) (member_id r))
    /\ messages d' = messages d
    /\ Forall (fun old => member_id old < member_id r) (rows t)
    /\ seq t < member_id r <= max_rowid
    /\ member_name r <> SqlNull /\ member_email r <> SqlNull
    /\ member_joined_at r = SqlText now.
Proof.
  unfold insert_member. intros H.
  destruct fault; [discriminate H|].
  destruct (members d) as [t|]; [|discriminate H].
  bind_inv H as name. bind_inv H as email. bind_inv H as phone.
  bind_inv H as category. bind_inv H as address. bind_inv H as age.
  bind_inv H as u1. bind_inv H as u2. bind_inv H as id. injection H as <-.
  apply next_rowid_inv in Eid as (_ & Hmax & Hseq & Hold).
  exists t, {| member_id := id; member_name := name; member_email := email;
               member_phone := phone; member_category := category;
               member_address := address; member_age := age;
               member_joined_at := SqlText now |}.
  simpl. split; [reflexivity|]. split; [reflexivity|]. split; [reflexivity|].
  split; [rewrite Forall_fmap in Hold; exact Hold|]. split; [lia|].
  split; [eapply not_null_inv; eassumption|].
  split; [eapply not_null_inv; eassumption | reflexivity].
Qed.

Lemma insert_member_appends_one_row_witness :
  exists t r,
    members fresh_db = Some t
    /\ members {| members :=
                    Some (Table [ {| member_id := 1;
                                     member_name := SqlText (py "Jane");
                                     member_email := SqlText (py "j@x.org");
                                     member_phone := SqlNull;
                                     member_category := SqlNull;
                                     member_address := SqlNull;
                                     member_age := SqlInteger 30;
                                     member_joined_at := SqlText (py "2025-08-01") |} ] 1);
                  messages := Some (Table [] 0) |}
       = Some (Table (rows t ++ [r]) (member_id r))
    /\ messages {| members :=
                     Some (Table [ {| member_id := 1;
                                      member_name := SqlText (py "Jane");
                                      member_email := SqlText (py "j@x.org");
                                      member_phone := SqlNull;
                                      member_category := SqlNull;
                                      member_address := SqlNull;
                                      member_age := SqlInteger 30;
                                      member_joined_at := SqlText (py "2025-08-01") |} ] 1);
                   messages := Some (Table [] 0) |}
       = messages fresh_db
    /\ Forall (fun old => member_id old < member_id r) (rows t)
    /\ seq t < member_id r <= max_rowid
    /\ member_name r <> SqlNull /\ member_email r <> SqlNull
    /\ member_joined_at r = SqlText (py "2025-08-01").
Proof.
  apply (insert_member_appends_one_row None (py "2025-08-01")
           (<["name" := PyStr (py "Jane")]>
              (<["email" := PyStr (py "j@x.org")]> (<["age" := PyInt 30]> ∅)))
           fresh_db).
  reflexivity.
Defined.

(** X3. The same for [insert_message]: one row appended after the existing
    ones, with a fresh id above all others, name and email not NULL, and the
    members table untouched. *)
Theorem insert_message_appends_one_row
    (fault : option exn) (now : pystr) (data : gmap string pyval) (d d' : db) :
  insert_message fault now data d = Ok d' ->
  exists t r,
    messages d = Some t
    /\ messages d' = Some (Table (rows t ++ [r]) (message_id r))
    /\ members d' = members d
    /\ Forall (fun old => message_id old < message_id r) (rows t)
    /\ seq t < message_id r <= max_rowid
    /\ message_name r <> SqlNull /\ message_email r <> SqlNull
    /\ message_sent_at r = SqlText now.
Proof.
  unfold insert_message. intros H.
  destruct fault; [discriminate H|].
  destruct (messages d) as [t|]; [|discriminate H].
  bind_inv H as name. bind_inv H as email. bind_inv H as subject.
  bind_inv H as message. bind_inv H as u1. bind_inv H as u2. bind_inv H as id.
  injection H as <-.
  apply next_rowid_inv in Eid as (_ & Hmax & Hseq & Hold).
  exists t, {| message_id := id; message_name := name; message_email := email;
               message_subject := subject; message_message := message;
               message_sent_at := SqlText now |}.
  simpl. split; [reflexivity|]. split; [reflexivity|]. split; [reflexivity|].
  split; [rewrite Forall_fmap in Hold; exact Hold|]. split; [lia|].
  split; [eapply not_null_inv; eassumption|].
  split; [eapply not_null_inv; eassumption | reflexivity].
Qed.

Lemma insert_message_appends_one_row_witness :
  exists t r,
    messages fresh_db = Some t
    /\ messages {| members := Some (Table [] 0);
                   messages :=
                     Some (Table [ {| message_id := 1;
                                      message_name := SqlText (py "Jane");
                                      message_email := SqlText (py "j@x.org");
                                      message_subject := SqlNull;
                                      message_message := SqlText (py "Hello");
                                      message_sent_at := SqlText (py "2025-08-01") |} ] 1) |}
       = Some (Table (rows t ++ [r]) (message_id r))
    /\ members {| members := Some (Table [] 0);
                  messages :=
                    Some (Table [ {| message_id := 1;
                                     message_name := SqlText (py "Jane");
                                     message_email := SqlText (py "j@x.org");
                                     message_subject := SqlNull;
                                     message_message := SqlText (py "Hello");
                                     message_sent_at := SqlText (py "2025-08-01") |} ] 1) |}
       = members fresh_db
    /\ Forall (fun old => message_id old < message_id r) (rows t)
    /\ seq t < message_id r <= max_rowid
    /\ message_name r <> SqlNull /\ message_email r <> SqlNull
    /\ message_sent_at r = SqlText (py "2025-08-01").
Proof.
  apply (insert_message_appends_one_row None (py "2025-08-01")
           (<["name" := PyStr (py "Jane")]>
              (<["email" := PyStr (py "j@x.org")]>
                 (<["message" := PyStr (py "Hello")]> ∅)))
           fresh_db).
  reflexivity.
Defined.

(** ** Form submissions *)

Lemma strip_nil : strip [] = [].
Proof. reflexivity. Qed.

Lemma stripped_field_value (f : gmap string pystr) (k : string) (v : pystr) :
  f !! k = Some v -> strip v <> [] ->
  stripped_field f k = PyStr (strip v) /\ truthy (PyStr (strip v)) = true.
Proof.
  intros Hk Hs. unfold stripped_field, form_get. rewrite Hk. simpl.
  case_bool_decide as Hnil; simpl.
  - subst v. exfalso. apply Hs. reflexivity.
  - split; [reflexivity|]. apply negb_true_iff, bool_decide_eq_false. exact Hs.
Qed.

Lemma stripped_field_strip (f : gmap string pystr) (k : string) :
  truthy (stripped_field f k) = true ->
  exists v, f !! k = Some v /\ stripped_field f k = PyStr (strip v) /\ strip v <> [].
Proof.
  unfold stripped_field, form_get. destruct (f !! k) as [v|]; [|discriminate].
  destruct (truthy (PyStr v)); [|discriminate].
  simpl. rewrite negb_true_iff, bool_decide_eq_false. intros H.
  exists v. auto.
Qed.

Lemma age_binding (f : gmap string pystr) (v : sqlval) :
  submitted_age f v ->
  exists age, int_field f "age" = Ok age /\ bind_param (Some age) = Ok v.
Proof.
  unfold int_field, form_get.
  intros [[-> [H|H]]|(a & z & H & Ha & Hz & Hrange & ->)]; rewrite H.
  - exists PyNone. auto.
  - exists PyNone. auto.
  - exists (PyInt z). simpl. case_bool_decide; [contradiction|]. simpl.
    rewrite Hz. split; [reflexivity|].
    destruct (Z.leb_spec (- max_rowid - 1) z), (Z.leb_spec z max_rowid);
      simpl; try reflexivity; lia.
Qed.

(** X4. A membership form with name and email filled in and an age that is
    absent, empty or an integer of 64 bits, sent to a store that works, adds
    exactly the row submitted: the next id, name and email trimmed, phone,
    category and address as typed (NULL only when the field is absent), the
    age as an integer, the time of the request; and flashes the thanks. *)
Theorem membership_stores_submission
    (rq : request) (ev : env) (st : state) (t : table member_row)
    (vn ve : pystr) (age : sqlval) :
  method rq = POST ->
  form rq !! "name" = Some vn -> strip vn <> [] ->
  form rq !! "email" = Some ve -> strip ve <> [] ->
  submitted_age (form rq) age ->
  storage_fault ev = None ->
  members (st_db st) = Some t ->
  fold_right Z.max (seq t) (map member_id (rows t)) < max_rowid ->
  membership rq ev st
  = Ok (Redirect (UrlFor "membership" None),
        flash (Text "Thank you for registering! We will contact you soon.") "success"
          (with_db
             {| members :=
                  Some (Table
                          (rows t ++
                             [ {| member_id :=
                                    fold_right Z.max (seq t) (map member_id (rows t)) + 1;
                                  member_name := SqlText (strip vn);
                                  member_email := SqlText (strip ve);
                                  member_phone := submitted_text (form rq) "phone";
                                  member_category := submitted_text (form rq) "category";
                                  member_address := submitted_text (form rq) "address";
                                  member_age := age;
                                  member_joined_at := SqlText (clock ev) |} ])
                          (fold_right Z.max (seq t) (map member_id (rows t)) + 1));
                messages := messages (st_db st) |} st)).
Proof.
  intros Hm Hn Hsn He Hse Hage Hfault Ht Hroom.
  destruct (stripped_field_value _ _ _ Hn Hsn) as [Hfn Htn].
  destruct (stripped_field_value _ _ _ He Hse) as [Hfe Hte].
  destruct (age_binding _ _ Hage) as (a & Hint & Hbind).
  unfold membership. rewrite Hm, Hfn, Hfe, Htn, Hte. cbn [negb orb].
  rewrite Hint. cbn [bind].
  unfold insert_member. rewrite Hfault, Ht.
  rewrite lookup_insert_eq.
  rewrite (lookup_insert_ne _ "name" "email"), lookup_insert_eq by discriminate.
  rewrite !(lookup_insert_ne _ _ "phone"), lookup_insert_eq by discriminate.
  rewrite !(lookup_insert_ne _ _ "category"), lookup_insert_eq by discriminate.
  rewrite !(lookup_insert_ne _ _ "address"), lookup_insert_eq by discriminate.
  rewrite !(lookup_insert_ne _ _ "age"), lookup_insert_eq by discriminate.
  rewrite !bind_form_get, Hbind. cbn [bind_param bind not_null].
  unfold next_rowid.
  destruct (Z.ltb_spec (fold_right Z.max (seq t) (map member_id (rows t))) max_rowid)
    as [_|Hge]; [|lia].
  reflexivity.
Qed.

Lemma membership_stores_submission_witness :
  exists st',
    membership (post [("name", py "  Jane Doe "); ("email", py "jane@example.com");
                      ("phone", py ""); ("age", py "30")]) sample_env fresh_state
    = Ok (Redirect (UrlFor "membership" None), st')
    /\ member_rows (st_db st')
       = [ {| member_id := 1;
              member_name := SqlText (py "Jane Doe");
              member_email := SqlText (py "jane@example.com");
              member_phone := SqlText [];
              member_category := SqlNull;
              member_address := SqlNull;
              member_age := SqlInteger 30;
              member_joined_at := SqlText (clock sample_env) |} ].
Proof.
  eexists. split.
  - apply (membership_stores_submission
             (post [("name", py "  Jane Doe "); ("email", py "jane@example.com");
                    ("phone", py ""); ("age", py "30")])
             sample_env fresh_state (Table [] 0)
             (py "  Jane Doe ") (py "jane@example.com") (SqlInteger 30)).
    + reflexivity.
    + reflexivity.
    + discriminate.
    + reflexivity.
    + discriminate.
    + right. exists (py "30"), 30. repeat split; try reflexivity; try discriminate.
    + reflexivity.
    + reflexivity.
    + reflexivity.
  - reflexivity.
Defined.

(** X5. A contact form with name and email filled in, sent to a store that
    works, adds exactly the row submitted: the next id, name and email
    trimmed, subject and message as typed, of any length, empty or not (NULL
    only when the field is absent), and the time of the request. *)
Theorem contact_stores_submission
    (rq : request) (ev : env) (st : state) (t : table message_row) (vn ve : pystr) :
  method rq = POST ->
  form rq !! "name" = Some vn -> strip vn <> [] ->
  form rq !! "email" = Some ve -> strip ve <> [] ->
  storage_fault ev = None ->
  messages (st_db st) = Some t ->
  fold_right Z.max (seq t) (map message_id (rows t)) < max_rowid ->
  contact rq ev st
  = Ok (Redirect (UrlFor "contact" None),
        flash (Text "Thank you for contacting us. We will respond shortly.") "success"
          (with_db
             {| members := members (st_db st);
                messages :=
                  Some (Table
                          (rows t ++
                             [ {| message_id :=
                                    fold_right Z.max (seq t) (map message_id (rows t)) + 1;
                                  message_name := SqlText (strip vn);
                                  message_email := SqlText (strip ve);
                                  message_subject := submitted_text (form rq) "subject";
                                  message_message := submitted_text (form rq) "message";
                                  message_sent_at := SqlText (clock ev) |} ])
                          (fold_right Z.max (seq t) (map message_id (rows t)) + 1)) |}
             st)).
Proof.
  intros Hm Hn Hsn He Hse Hfault Ht Hroom.
  destruct (stripped_field_value _ _ _ Hn Hsn) as [Hfn Htn].
  destruct (stripped_field_value _ _ _ He Hse) as [Hfe Hte].
  unfold contact. rewrite Hm, Hfn, Hfe, Htn, Hte. cbn [negb orb].
  unfold insert_message. rewrite Hfault, Ht.
  rewrite lookup_insert_eq.
  rewrite (lookup_insert_ne _ "name" "email"), lookup_insert_eq by discriminate.
  rewrite !(lookup_insert_ne _ _ "subject"), lookup_insert_eq by discriminate.
  rewrite !(lookup_insert_ne _ _ "message"), lookup_insert_eq by discriminate.
  rewrite !bind_form_get. cbn [bind_param bind not_null].
  unfold next_rowid.
  destruct (Z.ltb_spec (fold_right Z.max (seq t) (map message_id (rows t))) max_rowid)
    as [_|Hge]; [|lia].
  reflexivity.
Qed.

Lemma contact_stores_submission_witness :
  exists st',
    contact (post [("name", py "Jane Doe"); ("email", py " jane@example.com");
                   ("message", py "")]) sample_env fresh_state
    = Ok (Redirect (UrlFor "contact" None), st')
    /\ message_rows (st_db st')
       = [ {| message_id := 1;
              message_name := SqlText (py "Jane Doe");
              message_email := SqlText (py "jane@example.com");
              message_subject := SqlNull;
              message_message := SqlText [];
              message_sent_at := SqlText (clock sample_env) |} ].
Proof.
  eexists. split.
  - apply (contact_stores_submission
             (post [("name", py "Jane Doe"); ("email", py " jane@example.com");
                    ("message", py "")])
             sample_env fresh_state (Table [] 0)
             (py "Jane Doe") (py " jane@example.com")).
    + reflexivity.
    + reflexivity.
    + discriminate.
    + reflexivity.
    + discriminate.
    + reflexivity.
    + reflexivity.
    + reflexivity.
  - reflexivity.
Defined.




(** X7. When the store fails under a valid contact form (the engine raises,
    the messages table is missing, or the largest rowid is used up), the
    handler does not crash: it flashes the error it caught and leaves the
    database as it was. *)
Theorem contact_flashes_storage_error (rq : request) (ev : env) (st : state) :
  method rq = POST ->
  filled (form rq) "name" -> filled (form rq) "email" ->
  (forall e, storage_fault ev = Some e ->
     contact rq ev st
     = Ok (Redirect (UrlFor "contact" None),
           flash (Formatted "Error sending your message: " e) "danger" st))
  /\ (storage_fault ev = None -> messages (st_db st) = None ->
      contact rq ev st
      = Ok (Redirect (UrlFor "contact" None),
            flash (Formatted "Error sending your message: " OperationalError)
              "danger" st))
  /\ (forall t, storage_fault ev = None -> messages (st_db st) = Some t ->
        max_rowid <= fold_right Z.max (seq t) (map message_id (rows t)) ->
        contact rq ev st
        = Ok (Redirect (UrlFor "contact" None),
              flash (Formatted "Error sending your message: " OperationalError)
                "danger" st)).
Proof.
  intros Hm Hname Hemail.
  destruct (stripped_field_filled _ _ Hname) as (n & Hn & _ & Htn).
  destruct (stripped_field_filled _ _ Hemail) as (m & He & _ & Htm).
  unfold contact. rewrite Hm, Hn, He, Htn, Htm. cbn [negb orb].
  unfold insert_message. split; [|split].
  - intros e ->. reflexivity.
  - intros -> ->. reflexivity.
  - intros t -> -> Hfull.
    rewrite lookup_insert_eq.
    rewrite (lookup_insert_ne _ "name" "email"), lookup_insert_eq by discriminate.
    rewrite !(lookup_insert_ne _ _ "subject"), lookup_insert_eq by discriminate.
    rewrite !(lookup_insert_ne _ _ "message"), lookup_insert_eq by discriminate.
    rewrite !bind_form_get. cbn [bind_param bind not_null].
    unfold next_rowid.
    destruct (Z.ltb_spec (fold_right Z.max (seq t) (map message_id (rows t))) max_rowid)
      as [Hlt|_]; [lia|].
    reflexivity.
Qed.

Lemma contact_flashes_storage_error_witness :
  contact (post [("name", py "Jane Doe"); ("email", py "jane@example.com")])
    {| clock := []; storage_fault := Some OperationalError; listing := Ok [] |}
    fresh_state
  = Ok (Redirect (UrlFor "contact" None),
        flash (Formatted "Error sending your message: " OperationalError) "danger"
          fresh_state)
  /\ contact (post [("name", py "Jane Doe"); ("email", py "jane@example.com")])
       sample_env empty_state
     = Ok (Redirect (UrlFor "contact" None),
           flash (Formatted "Error sending your message: " OperationalError) "danger"
             empty_state)
  /\ contact (post [("name", py "Jane Doe"); ("email", py "jane@example.com")])
       sample_env
       {| st_db := {| members := None; messages := Some (Table [] max_rowid) |};
          st_flashes := [] |}
     = Ok (Redirect (UrlFor "contact" None),
           flash (Formatted "Error sending your message: " OperationalError) "danger"
             {| st_db := {| members := None; messages := Some (Table [] max_rowid) |};
                st_flashes := [] |}).
Proof.
  assert (filled (form (post [("name", py "Jane Doe"); ("email", py "jane@example.com")]))
            "name") as Hn
      by (exists (py "Jane Doe"); split; [reflexivity | discriminate]).
  assert (filled (form (post [("name", py "Jane Doe"); ("email", py "jane@example.com")]))
            "email") as He
      by (exists (py "jane@example.com"); split; [reflexivity | discriminate]).
  split; [|split].
  - apply (proj1 (contact_flashes_storage_error
                    (post [("name", py "Jane Doe"); ("email", py "jane@example.com")])
                    {| clock := []; storage_fault := Some OperationalError;
                       listing := Ok [] |}
                    fresh_state eq_refl Hn He) OperationalError).
    reflexivity.
  - apply (proj1 (proj2 (contact_flashes_storage_error
                           (post [("name", py "Jane Doe");
                                  ("email", py "jane@example.com")])
                           sample_env empty_state eq_refl Hn He))); reflexivity.
  - apply (proj2 (proj2 (contact_flashes_storage_error
                           (post [("name", py "Jane Doe");
                                  ("email", py "jane@example.com")])
                           sample_env
                           {| st_db := {| members := None;
                                          messages := Some (Table [] max_rowid) |};
                              st_flashes := [] |} eq_refl Hn He))
             (Table [] max_rowid)); [reflexivity | reflexivity |].
    simpl. lia.
Defined.

(** X8. Every POST to /membership is answered with a redirect to the same
    page and flashes exactly one message. The message is in category
    success exactly when one row was appended to the members table;
    otherwise it is in category danger and the database is as it was. The
    messages table is never touched. *)
Theorem membership_post_outcome (rq : request) (ev : env) (st : state) :
  method rq = POST ->
  exists st' msg,
    membership rq ev st = Ok (Redirect (UrlFor "membership" None), st')
    /\ messages (st_db st') = messages (st_db st)
    /\ ((st_flashes st' = st_flashes st ++ [(msg, "success")]
         /\ exists r, member_rows (st_db st') = member_rows (st_db st) ++ [r])
        \/ (st_flashes st' = st_flashes st ++ [(msg, "danger")]
            /\ st_db st' = st_db st)).
Proof.
  intros Hm. unfold membership. rewrite Hm.
  destruct (negb (truthy (stripped_field (form rq) "name"))
            || negb (truthy (stripped_field (form rq) "email"))).
  { eexists _, _. cbn [bind]. split; [reflexivity|]. split; [reflexivity|].
    right. split; reflexivity. }
  destruct (int_field (form rq) "age") as [age|e]; cbn [bind try_except].
  2:{ eexists _, _. split; [reflexivity|]. split; [reflexivity|].
      right. split; reflexivity. }
  destruct (insert_member _ _ _ _) as [d|e] eqn:Hins; cbn [bind try_except].
  2:{ eexists _, _. split; [reflexivity|]. split; [reflexivity|].
      right. split; reflexivity. }
  apply insert_member_inv in Hins as (t & r & Ht & -> & _).
  eexists _, _. split; [reflexivity|]. split; [reflexivity|].
  left. split; [reflexivity|]. exists r.
  unfold member_rows. simpl. rewrite Ht. reflexivity.
Qed.

Lemma membership_post_outcome_witness :
  exists st' msg,
    membership (post [("name", py "Jane Doe")]) sample_env fresh_state
    = Ok (Redirect (UrlFor "membership" None), st')
    /\ messages (st_db st') = messages (st_db fresh_state)
    /\ ((st_flashes st' = st_flashes fresh_state ++ [(msg, "success")]
         /\ exists r, member_rows (st_db st')
                      = member_rows (st_db fresh_state) ++ [r])
        \/ (st_flashes st' = st_flashes fresh_state ++ [(msg, "danger")]
            /\ st_db st' = st_db fresh_state)).
Proof.
  apply (membership_post_outcome (post [("name", py "Jane Doe")]) sample_env fresh_state).
  reflexivity.
Defined.

(** X9. Every POST to /contact is answered with a redirect to the same page
    and flashes exactly one message, in category success exactly when one
    row was appended to the messages table, in category danger with the
    database as it was otherwise. The members table is never touched. *)
Theorem contact_post_outcome (rq : request) (ev : env) (st : state) :
  method rq = POST ->
  exists st' msg,
    contact rq ev st = Ok (Redirect (UrlFor "contact" None), st')
    /\ members (st_db st') = members (st_db st)
    /\ ((st_flashes st' = st_flashes st ++ [(msg, "success")]
         /\ exists r, message_rows (st_db st') = message_rows (st_db st) ++ [r])
        \/ (st_flashes st' = st_flashes st ++ [(msg, "danger")]
            /\ st_db st' = st_db st)).
Proof.
  intros Hm. unfold contact. rewrite Hm.
  destruct (negb (truthy (stripped_field (form rq) "name"))
            || negb (truthy (stripped_field (form rq) "email"))).
  { eexists _, _. cbn [bind]. split; [reflexivity|]. split; [reflexivity|].
    right. split; reflexivity. }
  destruct (insert_message _ _ _ _) as [d|e] eqn:Hins; cbn [bind try_except].
  2:{ eexists _, _. split; [reflexivity|]. split; [reflexivity|].
      right. split; reflexivity. }
  apply insert_message_inv in Hins as (t & r & Ht & -> & _).
  eexists _, _. split; [reflexivity|]. split; [reflexivity|].
  left. split; [reflexivity|]. exists r.
  unfold message_rows. simpl. rewrite Ht. reflexivity.
Qed.

Lemma contact_post_outcome_witness :
  exists st' msg,
    contact (post [("name", py "Jane Doe"); ("email", py "jane@example.com")])
      sample_env fresh_state
    = Ok (Redirect (UrlFor "contact" None), st')
    /\ members (st_db st') = members (st_db fresh_state)
    /\ ((st_flashes st' = st_flashes fresh_state ++ [(msg, "success")]
         /\ exists r, message_rows (st_db st')
                      = message_rows (st_db fresh_state) ++ [r])
        \/ (st_flashes st' = st_flashes fresh_state ++ [(msg, "danger")]
            /\ st_db st' = st_db fresh_state)).
Proof.
  apply (contact_post_outcome
           (post [("name", py "Jane Doe"); ("email", py "jane@example.com")])
           sample_env fresh_state).
  reflexivity.
Defined.

(** ** Trimming *)

Lemma lstrip_head (s : pystr) (c : N) :
  head (lstrip s) = Some c -> py_isspace c = false.
Proof.
  induction s as [|a s IH]; [discriminate|].
  cbn [lstrip]. destruct (py_isspace a) eqn:Ea; [exact IH|].
  simpl. intros H. injection H as <-. exact Ea.
Qed.

Lemma lstrip_suffix (s : pystr) : exists ws, s = ws ++ lstrip s.
Proof.
  induction s as [|a s [ws IH]]; [exists []; reflexivity|].
  cbn [lstrip]. destruct (py_isspace a).
  - exists (a :: ws). simpl. rewrite <- IH. reflexivity.
  - exists []. reflexivity.
Qed.

Lemma head_rev {A : Type} (l : list A) : head (rev l) = last l.
Proof. rewrite rev_alt. apply head_reverse. Qed.

Lemma last_rev {A : Type} (l : list A) : last (rev l) = head l.
Proof. rewrite rev_alt. apply last_reverse. Qed.

Lemma strip_trimmed (s : pystr) : strip s <> [] -> trimmed (strip s).
Proof.
  unfold strip. intros Hne. split; [exact Hne|]. split.
  - intros c Hc.
    destruct (lstrip_suffix (rev (lstrip s))) as [ws Hws].
    apply (f_equal (@rev N)) in Hws. rewrite rev_involutive, rev_app_distr in Hws.
    apply (lstrip_head s c). rewrite Hws.
    rewrite head_app, Hc. reflexivity.
  - intros c Hc. rewrite last_rev in Hc. eapply lstrip_head. exact Hc.
Qed.

(** X10. The name and the email of every row that a membership or contact
    request writes are trimmed: not empty, and without whitespace at either
    end. *)
Theorem stored_names_are_trimmed (rq : request) (ev : env) (st st' : state)
    (resp : response) :
  (membership rq ev st = Ok (resp, st') ->
   exists new, member_rows (st_db st') = member_rows (st_db st) ++ new
               /\ Forall (fun r => trimmed_text (member_name r)
                                   /\ trimmed_text (member_email r)) new)
  /\ (contact rq ev st = Ok (resp, st') ->
      exists new, message_rows (st_db st') = message_rows (st_db st) ++ new
                  /\ Forall (fun r => trimmed_text (message_name r)
                                      /\ trimmed_text (message_email r)) new).
Proof.
  assert (forall (R : Type) (P : R -> Prop) (l : list R),
             exists new, l = l ++ new /\ Forall P new) as Hnone.
  { intros R P l. exists []. rewrite app_nil_r. auto. }
  assert (forall f k v, truthy (stripped_field f k) = true ->
                        bind_param (Some (stripped_field f k)) = Ok v ->
                        trimmed_text v) as Htrim.
  { intros f k v Ht Hb. apply stripped_field_strip in Ht as (w & _ & Hf & Hs).
    rewrite Hf in Hb. simpl in Hb. injection Hb as <-.
    exists (strip w). split; [reflexivity|]. apply strip_trimmed. exact Hs. }
  split; intros H.
  - unfold membership in H.
    destruct (method rq); [injection H as _ <-; apply Hnone|].
    destruct (truthy (stripped_field (form rq) "name")) eqn:Hn;
      [|injection H as _ <-; apply Hnone].
    destruct (truthy (stripped_field (form rq) "email")) eqn:He;
      [|injection H as _ <-; apply Hnone].
    cbn [negb orb] in H.
    destruct (int_field (form rq) "age") as [age|e];
      [|injection H as _ <-; apply Hnone].
    cbn [bind] in H.
    destruct (insert_member _ _ _ _) as [d|e] eqn:Hins;
      [|injection H as _ <-; apply Hnone].
    injection H as _ <-.
    apply insert_member_inv in Hins as (t & r & Ht & -> & Hname & Hemail & _).
    rewrite lookup_insert_eq in Hname.
    rewrite lookup_insert_ne, lookup_insert_eq in Hemail by discriminate.
    exists [r]. unfold member_rows. simpl. rewrite Ht. split; [reflexivity|].
    constructor; [|constructor].
    split; [exact (Htrim _ _ _ Hn Hname) | exact (Htrim _ _ _ He Hemail)].
  - unfold contact in H.
    destruct (method rq); [injection H as _ <-; apply Hnone|].
    destruct (truthy (stripped_field (form rq) "name")) eqn:Hn;
      [|injection H as _ <-; apply Hnone].
    destruct (truthy (stripped_field (form rq) "email")) eqn:He;
      [|injection H as _ <-; apply Hnone].
    cbn [negb orb] in H.
    destruct (insert_message _ _ _ _) as [d|e] eqn:Hins;
      [|injection H as _ <-; apply Hnone].
    injection H as _ <-.
    apply insert_message_inv in Hins as (t & r & Ht & -> & Hname & Hemail & _).
    rewrite lookup_insert_eq in Hname.
    rewrite lookup_insert_ne, lookup_insert_eq in Hemail by discriminate.
    exists [r]. unfold message_rows. simpl. rewrite Ht. split; [reflexivity|].
    constructor; [|constructor].
    split; [exact (Htrim _ _ _ Hn Hname) | exact (Htrim _ _ _ He Hemail)].
Qed.

Lemma stored_names_are_trimmed_witness :
  exists st',
    membership (post [("name", py "  Jane Doe "); ("email", py "jane@example.com ")])
      sample_env fresh_state
    = Ok (Redirect (UrlFor "membership" None), st')
    /\ exists new,
         member_rows (st_db st') = member_rows (st_db fresh_state) ++ new
         /\ Forall (fun r => trimmed_text (member_name r)
                             /\ trimmed_text (member_email r)) new.
Proof.
  eexists. split; [reflexivity|].
  apply (proj1 (stored_names_are_trimmed
                  (post [("name", py "  Jane Doe "); ("email", py "jane@example.com ")])
                  sample_env fresh_state _ (Redirect (UrlFor "membership" None)))).
  reflexivity.
Defined.

(** ** Requests one after the other *)

(** What one request can do to the database: nothing, or append one row,
    numbered by the table, to one of the two tables. *)
Lemma serve_db_step (EVENTS : pyval) (v : visit) (ev : env) (st st' : state)
    (resp : response) :
  serve EVENTS v ev st = Ok (resp, st') ->
  st_db st' = st_db st
  \/ (is_post v = true
      /\ exists t r,
           members (st_db st) = Some t
           /\ st_db st' = {| members := Some (Table (rows t ++ [r]) (member_id r));
                             messages := messages (st_db st) |}
           /\ member_id r = fold_right Z.max (seq t) (map member_id (rows t)) + 1
           /\ named_member r)
  \/ (is_post v = true
      /\ exists t r,
           messages (st_db st) = Some t
           /\ st_db st' = {| members := members (st_db st);
                             messages := Some (Table (rows t ++ [r]) (message_id r)) |}
           /\ message_id r = fold_right Z.max (seq t) (map message_id (rows t)) + 1
           /\ named_message r).
Proof.
  intros H. destruct v; cbn [serve] in H;
    try (left; injection H as _ <-; reflexivity).
  - left. apply index_keeps_state in H. subst. reflexivity.
  - pose proof (membership_appends _ _ _ _ _ H) as (new & Hnew & Hnamed & _).
    unfold membership in H. cbn [is_post].
    destruct (method rq); [left; injection H as _ <-; reflexivity|].
    destruct (negb _ || negb _); [left; injection H as _ <-; reflexivity|].
    destruct (int_field _ _); [|left; injection H as _ <-; reflexivity].
    cbn [bind] in H.
    destruct (insert_member _ _ _ _) as [d|e] eqn:Hins;
      [|left; injection H as _ <-; reflexivity].
    injection H as _ <-. right. left. split; [reflexivity|].
    apply insert_member_inv in Hins as (t & r & Ht & -> & _ & _ & Hid).
    apply next_rowid_inv in Hid as [Hid _].
    exists t, r. split; [exact Ht|]. split; [reflexivity|]. split; [exact Hid|].
    unfold member_rows in Hnew. simpl in Hnew. rewrite Ht in Hnew.
    apply app_inv_head in Hnew. subst new. inversion Hnamed; assumption.
  - pose proof (contact_appends _ _ _ _ _ H) as (new & Hnew & Hnamed & _).
    unfold contact in H. cbn [is_post].
    destruct (method rq); [left; injection H as _ <-; reflexivity|].
    destruct (negb _ || negb _); [left; injection H as _ <-; reflexivity|].
    destruct (insert_message _ _ _ _) as [d|e] eqn:Hins;
      [|left; injection H as _ <-; reflexivity].
    injection H as _ <-. right. right. split; [reflexivity|].
    apply insert_message_inv in Hins as (t & r & Ht & -> & _ & _ & Hid).
    apply next_rowid_inv in Hid as [Hid _].
    exists t, r. split; [exact Ht|]. split; [reflexivity|]. split; [exact Hid|].
    unfold message_rows in Hnew. simpl in Hnew. rewrite Ht in Hnew.
    apply app_inv_head in Hnew. subst new. inversion Hnamed; assumption.
  - left. unfold veterans_gallery, gallery in H.
    destruct (gallery_files ev); [|discriminate]. injection H as _ <-. reflexivity.
  - left. unfold juniors_gallery, gallery in H.
    destruct (gallery_files ev); [|discriminate]. injection H as _ <-. reflexivity.
  - left. unfold seniors_gallery, gallery in H.
    destruct (gallery_files ev); [|discriminate]. injection H as _ <-. reflexivity.
Qed.

(** X11. Only a POST to /membership or /contact changes anything: for every
    other request, a GET of either form page included, the handler neither
    writes to the database nor flashes a message. *)
Theorem only_posts_change_state
    (EVENTS : pyval) (v : visit) (ev : env) (st st' : state) (resp : response) :
  is_post v = false ->
  serve EVENTS v ev st = Ok (resp, st') ->
  st' = st.
Proof.
  intros Hget H. destruct v; cbn [serve] in H;
    try (injection H as _ <-; reflexivity).
  - apply index_keeps_state in H. exact H.
  - unfold membership in H. cbn [is_post] in Hget.
    destruct (method rq); [|discriminate Hget]. injection H as _ <-. reflexivity.
  - unfold contact in H. cbn [is_post] in Hget.
    destruct (method rq); [|discriminate Hget]. injection H as _ <-. reflexivity.
  - unfold veterans_gallery, gallery in H.
    destruct (gallery_files ev); [|discriminate]. injection H as _ <-. reflexivity.
  - unfold juniors_gallery, gallery in H.
    destruct (gallery_files ev); [|discriminate]. injection H as _ <-. reflexivity.
  - unfold seniors_gallery, gallery in H.
    destruct (gallery_files ev); [|discriminate]. injection H as _ <-. reflexivity.
Qed.

Lemma only_posts_change_state_witness :
  exists resp st',
    serve DEFAULT_EVENTS
      (VisitMembership {| method := GET; form := {["name" := py "Jane"]} |})
      sample_env fresh_state
    = Ok (resp, st')
    /\ st' = fresh_state.
Proof.
  eexists _, _. split; [reflexivity|].
  apply (only_posts_change_state DEFAULT_EVENTS
           (VisitMembership {| method := GET; form := {["name" := py "Jane"]} |})
           sample_env fresh_state fresh_state
           (Render "membership.html" [("title", CtxStr "Membership")]));
    reflexivity.
Defined.

Lemma serve_all_invariant (P : db -> Prop) (EVENTS : pyval) :
  (forall v ev st st' resp,
      serve EVENTS v ev st = Ok (resp, st') -> P (st_db st) -> P (st_db st')) ->
  forall vs st, P (st_db st) -> P (st_db (serve_all EVENTS vs st)).
Proof.
  intros Hstep vs. induction vs as [|[v ev] vs IH]; intros st HP; [exact HP|].
  cbn [serve_all]. destruct (serve EVENTS v ev st) as [[resp st']|e] eqn:Hs.
  - apply IH. eapply Hstep; eassumption.
  - apply IH. exact HP.
Qed.

(** X12. Whatever requests are served, in whatever order, the rows that
    were in the two tables stay where they were, unchanged: rows are only
    appended after them, and every appended row has a name and an email. *)
Theorem requests_only_append (EVENTS : pyval) (vs : list (visit * env)) (st : state) :
  exists new_members new_messages,
    member_rows (st_db (serve_all EVENTS vs st))
    = member_rows (st_db st) ++ new_members
    /\ message_rows (st_db (serve_all EVENTS vs st))
       = message_rows (st_db st) ++ new_messages
    /\ Forall named_member new_members
    /\ Forall named_message new_messages.
Proof.
  revert st. induction vs as [|[v ev] vs IH]; intros st.
  - exists [], []. rewrite !app_nil_r. auto.
  - cbn [serve_all]. destruct (serve EVENTS v ev st) as [[resp st']|e] eqn:Hs;
      [|apply IH].
    destruct (IH st') as (nm & nc & Hm & Hc & Hnm & Hnc). rewrite Hm, Hc.
    destruct (serve_db_step _ _ _ _ _ _ Hs)
      as [->|[(_ & t & r & Ht & -> & _ & Hr)|(_ & t & r & Ht & -> & _ & Hr)]].
    + exists nm, nc. auto.
    + exists (r :: nm), nc. unfold member_rows, message_rows. simpl. rewrite Ht.
      rewrite <- app_assoc. auto.
    + exists nm, (r :: nc). unfold member_rows, message_rows. simpl. rewrite Ht.
      rewrite <- app_assoc. auto.
Qed.

Lemma fold_max_bounded (s : Z) (l : list Z) :
  Forall (fun x => x <= s) l -> fold_right Z.max s l = s.
Proof. induction 1 as [|x l Hx _ IH]; simpl; [reflexivity | rewrite IH; lia]. Qed.

Lemma NoDup_snoc_fresh (l : list Z) (x : Z) :
  Forall (fun y => y < x) l -> NoDup l -> NoDup (l ++ [x]).
Proof.
  intros Hlt Hnd. apply NoDup_app. split; [exact Hnd|]. split.
  - intros y Hy Hy'. apply list_elem_of_singleton in Hy'. subst y.
    rewrite Forall_forall in Hlt. specialize (Hlt x Hy). lia.
  - apply NoDup_singleton.
Qed.

Lemma fold_max_above (s : Z) (l : list Z) :
  Forall (fun y => y < fold_right Z.max s l + 1) l.
Proof.
  eapply Forall_impl; [apply (fold_max_ge_elem s)|]. intros y Hy.
  cbv beta in Hy |- *. lia.
Qed.

(** X13. Ids stay unique: if no two rows of a table share an id, then after
    any requests no two rows do. *)
Theorem requests_keep_ids_unique (EVENTS : pyval) (vs : list (visit * env)) (st : state) :
  NoDup (map member_id (member_rows (st_db st))) ->
  NoDup (map message_id (message_rows (st_db st))) ->
  NoDup (map member_id (member_rows (st_db (serve_all EVENTS vs st))))
  /\ NoDup (map message_id (message_rows (st_db (serve_all EVENTS vs st)))).
Proof.
  intros Hm Hc.
  apply (serve_all_invariant
           (fun d => NoDup (map member_id (member_rows d))
                     /\ NoDup (map message_id (message_rows d))) EVENTS);
    [|split; assumption].
  clear. intros v ev st st' resp Hs [Hm Hc].
  destruct (serve_db_step _ _ _ _ _ _ Hs)
    as [->|[(_ & t & r & Ht & -> & Hid & _)|(_ & t & r & Ht & -> & Hid & _)]].
  - split; assumption.
  - unfold member_rows, message_rows in *. simpl. rewrite Ht in Hm.
    split; [|exact Hc]. rewrite map_app. simpl.
    apply NoDup_snoc_fresh; [|exact Hm]. rewrite Hid. apply fold_max_above.
  - unfold member_rows, message_rows in *. simpl. rewrite Ht in Hc.
    split; [exact Hm|]. rewrite map_app. simpl.
    apply NoDup_snoc_fresh; [|exact Hc]. rewrite Hid. apply fold_max_above.
Qed.

Lemma requests_keep_ids_unique_witness :
  NoDup (map member_id
           (member_rows
              (st_db (serve_all DEFAULT_EVENTS
                        [(VisitMembership (post [("name", py "A"); ("email", py "a@x")]),
                          sample_env);
                         (VisitMembership (post [("name", py "B"); ("email", py "b@x")]),
                          sample_env)] fresh_state))))
  /\ NoDup (map message_id
              (message_rows
                 (st_db (serve_all DEFAULT_EVENTS
                           [(VisitMembership (post [("name", py "A"); ("email", py "a@x")]),
                             sample_env);
                            (VisitMembership (post [("name", py "B"); ("email", py "b@x")]),
                             sample_env)] fresh_state)))).
Proof.
  apply (requests_keep_ids_unique DEFAULT_EVENTS
           [(VisitMembership (post [("name", py "A"); ("email", py "a@x")]), sample_env);
            (VisitMembership (post [("name", py "B"); ("email", py "b@x")]), sample_env)]
           fresh_state); apply NoDup_nil_2.
Defined.

Lemma first_ids_snoc (n : nat) : first_ids (S n) = first_ids n ++ [Z.of_nat n + 1].
Proof.
  unfold first_ids. rewrite seq_S, map_app. simpl. f_equal. f_equal. lia.
Qed.

Lemma first_ids_bounded (n : nat) : Forall (fun x => x <= Z.of_nat n) (first_ids n).
Proof.
  unfold first_ids. apply Forall_forall. intros x Hx.
  apply list_elem_of_fmap in Hx as (k & -> & Hk).
  apply list_elem_of_In, in_seq in Hk. lia.
Qed.

Lemma numbered_insert {R : Type} (id : R -> Z) (t : table R) (r : R) :
  numbered id (Some t) ->
  id r = fold_right Z.max (seq t) (map id (rows t)) + 1 ->
  numbered id (Some (Table (rows t ++ [r]) (id r))).
Proof.
  intros [Hids Hseq] Hid. rewrite Hids, Hseq in Hid.
  rewrite (fold_max_bounded _ _ (first_ids_bounded _)) in Hid.
  cbn [numbered rows seq]. rewrite length_app, Nat.add_1_r, map_app, Hids.
  cbn [length map]. rewrite first_ids_snoc, Hid. split; [reflexivity | lia].
Qed.

(** X14. Tables whose rows are numbered 1, 2, 3, ... in insertion order stay
    so whatever requests are served: a rejected or failed submission uses up
    no id, so the k-th row stored has id k. That is the case of a database
    that [init_db] has created. *)
Theorem requests_number_rows_in_order
    (EVENTS : pyval) (vs : list (visit * env)) (st : state) :
  numbered member_id (members (st_db st)) ->
  numbered message_id (messages (st_db st)) ->
  numbered member_id (members (st_db (serve_all EVENTS vs st)))
  /\ numbered message_id (messages (st_db (serve_all EVENTS vs st))).
Proof.
  intros Hm Hc.
  apply (serve_all_invariant
           (fun d => numbered member_id (members d)
                     /\ numbered message_id (messages d)) EVENTS);
    [|split; assumption].
  clear. intros v ev st st' resp Hs [Hm Hc].
  destruct (serve_db_step _ _ _ _ _ _ Hs)
    as [->|[(_ & t & r & Ht & -> & Hid & _)|(_ & t & r & Ht & -> & Hid & _)]].
  - split; assumption.
  - cbn [members messages]. split; [|exact Hc].
    rewrite Ht in Hm. apply numbered_insert; assumption.
  - cbn [members messages]. split; [exact Hm|].
    rewrite Ht in Hc. apply numbered_insert; assumption.
Qed.

Lemma requests_number_rows_in_order_witness :
  map message_id
    (message_rows
       (st_db (serve_all DEFAULT_EVENTS
                 [(VisitContact (post [("name", py "A"); ("email", py "a@x")]), sample_env);
                  (VisitContact (post [("name", py " "); ("email", py "b@x")]), sample_env);
                  (VisitIndex, sample_env);
                  (VisitContact (post [("name", py "C"); ("email", py "c@x")]), sample_env)]
                 fresh_state)))
  = [1; 2].
Proof.
  pose proof (requests_number_rows_in_order DEFAULT_EVENTS
                [(VisitContact (post [("name", py "A"); ("email", py "a@x")]), sample_env);
                 (VisitContact (post [("name", py " "); ("email", py "b@x")]), sample_env);
                 (VisitIndex, sample_env);
                 (VisitContact (post [("name", py "C"); ("email", py "c@x")]), sample_env)]
                fresh_state) as H.
  destruct H as [_ H].
  - split; reflexivity.
  - split; reflexivity.
  - destruct (messages _) as [t|] eqn:Ht in H; [|discriminate Ht].
    unfold message_rows. rewrite Ht. destruct H as [H _]. rewrite H.
    vm_compute in Ht. injection Ht as <-. reflexivity.
Defined.

(** X15. No request creates a table: the handlers never run [init_db]. A
    table that is missing stays missing whatever requests are served, so
    nothing submitted to it is ever stored. *)
Theorem requests_never_create_tables
    (EVENTS : pyval) (vs : list (visit * env)) (st : state) :
  (members (st_db st) = None -> members (st_db (serve_all EVENTS vs st)) = None)
  /\ (messages (st_db st) = None -> messages (st_db (serve_all EVENTS vs st)) = None).
Proof.
  split; intros Hnone.
  - apply (serve_all_invariant (fun d => members d = None) EVENTS); [|exact Hnone].
    clear. intros v ev st st' resp Hs Hnone.
    destruct (serve_db_step _ _ _ _ _ _ Hs)
      as [->|[(_ & t & r & Ht & -> & _)|(_ & t & r & Ht & -> & _)]];
      [exact Hnone | congruence | exact Hnone].
  - apply (serve_all_invariant (fun d => messages d = None) EVENTS); [|exact Hnone].
    clear. intros v ev st st' resp Hs Hnone.
    destruct (serve_db_step _ _ _ _ _ _ Hs)
      as [->|[(_ & t & r & Ht & -> & _)|(_ & t & r & Ht & -> & _)]];
      [exact Hnone | exact Hnone | congruence].
Qed.

Lemma requests_never_create_tables_witness :
  members (st_db (serve_all DEFAULT_EVENTS
                    [(VisitMembership (post [("name", py "A"); ("email", py "a@x")]),
                      sample_env);
                     (VisitContact (post [("name", py "A"); ("email", py "a@x")]),
                      sample_env)] empty_state)) = None
  /\ messages (st_db (serve_all DEFAULT_EVENTS
                        [(VisitMembership (post [("name", py "A"); ("email", py "a@x")]),
                          sample_env);
                         (VisitContact (post [("name", py "A"); ("email", py "a@x")]),
                          sample_env)] empty_state)) = None.
Proof.
  split;
    apply (requests_never_create_tables DEFAULT_EVENTS
             [(VisitMembership (post [("name", py "A"); ("email", py "a@x")]), sample_env);
              (VisitContact (post [("name", py "A"); ("email", py "a@x")]), sample_env)]
             empty_state);
    reflexivity.
Defined.

(** ** More on the galleries *)

Lemma filter_permutation {A : Type} (f : A -> bool) (l1 l2 : list A) :
  Permutation l1 l2 -> Permutation (List.filter f l1) (List.filter f l2).
Proof.
  induction 1 as [|x l1 l2 _ IH|x y l|l1 l2 l3 _ IH1 _ IH2]; cbn [List.filter].
  - reflexivity.
  - destruct (f x); [apply perm_skip|]; exact IH.
  - destruct (f x), (f y); try reflexivity. apply perm_swap.
  - etransitivity; eassumption.
Qed.

Lemma sort_files_unique (l1 l2 : list pystr) :
  Permutation l1 l2 -> isort str_ltb l1 = isort str_ltb l2.
Proof.
  intros Hp. apply (StronglySorted_unique_strong str_le).
  - intros x y _ _. apply str_le_antisym.
  - apply sort_files_strongly_sorted.
  - apply sort_files_strongly_sorted.
  - rewrite !isort_perm. exact Hp.
Qed.

(** X16. A gallery page does not depend on the order in which the
    directory is listed: two listings of the same names give the same page. *)
Theorem gallery_ignores_listing_order
    (dir template title : string) (ev1 ev2 : env) (st : state) (l1 l2 : list pystr) :
  listing ev1 = Ok l1 -> listing ev2 = Ok l2 -> Permutation l1 l2 ->
  gallery_files ev1 = gallery_files ev2
  /\ gallery dir template title ev1 st = gallery dir template title ev2 st.
Proof.
  intros H1 H2 Hp.
  assert (gallery_files ev1 = gallery_files ev2) as Hfiles.
  { rewrite (gallery_files_ok _ _ H1), (gallery_files_ok _ _ H2). f_equal.
    apply sort_files_unique, filter_permutation, Hp. }
  split; [exact Hfiles|]. unfold gallery. rewrite Hfiles. reflexivity.
Qed.

Lemma gallery_ignores_listing_order_witness :
  gallery_files (listing_env (Ok [py "b.png"; py "notes.txt"; py "a.JPG"]))
  = gallery_files (listing_env (Ok [py "a.JPG"; py "b.png"; py "notes.txt"]))
  /\ juniors_gallery (listing_env (Ok [py "b.png"; py "notes.txt"; py "a.JPG"])) empty_state
     = juniors_gallery (listing_env (Ok [py "a.JPG"; py "b.png"; py "notes.txt"]))
         empty_state.
Proof.
  apply (gallery_ignores_listing_order "images/juniors/" "juniors.html" "Juniors"
           (listing_env (Ok [py "b.png"; py "notes.txt"; py "a.JPG"]))
           (listing_env (Ok [py "a.JPG"; py "b.png"; py "notes.txt"]))
           empty_state
           [py "b.png"; py "notes.txt"; py "a.JPG"]
           [py "a.JPG"; py "b.png"; py "notes.txt"]).
  - reflexivity.
  - reflexivity.
  - apply Permutation_sym, (Permutation_cons_app [py "b.png"; py "notes.txt"] []).
    reflexivity.
Defined.

(** X17. A gallery page carries one URL for each image file of the
    listing, never more URLs than names, and, as a directory lists no name
    twice, no URL twice. *)
Theorem gallery_urls_are_distinct
    (dir template title : string) (ev : env) (st : state) (names : list pystr) :
  listing ev = Ok names -> NoDup names ->
  exists urls,
    gallery dir template title ev st
    = Ok (Render template [("title", CtxStr title); ("images", CtxUrls urls)], st)
    /\ NoDup urls
    /\ length urls = length (List.filter is_image names)
    /\ (length urls <= length names)%nat.
Proof.
  intros Hl Hnd. unfold gallery. rewrite (gallery_files_ok _ _ Hl). cbn [bind].
  eexists. split; [reflexivity|].
  assert (NoDup (isort str_ltb (List.filter is_image names))) as Hfiles.
  { rewrite isort_perm. apply NoDup_ListNoDup, List.NoDup_filter, NoDup_ListNoDup, Hnd. }
  split; [|split].
  - apply NoDup_fmap_2_strong; [|exact Hfiles].
    intros x y _ _ H. injection H as H. apply app_inv_head in H. exact H.
  - rewrite length_map, isort_length. reflexivity.
  - rewrite length_map, isort_length. apply filter_length_le.
Qed.

Lemma gallery_urls_are_distinct_witness :
  exists urls,
    seniors_gallery (listing_env (Ok [py "b.png"; py "notes.txt"; py "a.JPG"])) empty_state
    = Ok (Render "seniors.html" [("title", CtxStr "Seniors"); ("images", CtxUrls urls)],
          empty_state)
    /\ NoDup urls
    /\ length urls
       = length (List.filter is_image [py "b.png"; py "notes.txt"; py "a.JPG"])
    /\ (length urls <= length [py "b.png"; py "notes.txt"; py "a.JPG"])%nat.
Proof.
  apply (gallery_urls_are_distinct "images/seniors/" "seniors.html" "Seniors"
           (listing_env (Ok [py "b.png"; py "notes.txt"; py "a.JPG"])) empty_state).
  - reflexivity.
  - compute_done.
Defined.

(** ** More on the home page *)

Lemma news_preview_ok : exists posts, news_preview = Ok (PyList posts).
Proof. unfold news_preview, SAMPLE_NEWS, slice_to. eexists. reflexivity. Qed.

Lemma index_raises_with_preview (EVENTS : pyval) (st : state) :
  (exists e, index EVENTS st = Raise e) <-> (exists e, events_preview EVENTS = Raise e).
Proof.
  unfold index. destruct news_preview_ok as [posts ->]. cbn [bind].
  destruct (events_preview EVENTS) as [p|e]; cbn [bind].
  - split; intros [e H]; discriminate H.
  - split; intros _; eauto.
Qed.

Lemma events_preview_cases (EVENTS : pyval) :
  match EVENTS with
  | PyDict (_ :: _) | PyBool true => events_preview EVENTS = Raise TypeError
  | PyInt z => if z =? 0 then events_preview EVENTS = Ok (PyList [])
               else events_preview EVENTS = Raise TypeError
  | PyNone | PyBool false | PyDict [] | PyStr [] =>
      events_preview EVENTS = Ok (PyList [])
  | PyStr s => events_preview EVENTS = Ok (PyStr (take 6 s))
  | PyList l => exists shown, events_preview EVENTS = Ok (PyList shown)
  end.
Proof.
  destruct EVENTS as [|[|]|z|[|c s]|l|[|[k v] d]]; try reflexivity.
  - unfold events_preview, events_sorted, sorted. cbn [py_iter bind try_except truthy].
    destruct (z =? 0); reflexivity.
  - eexists. apply events_preview_list, events_sorted_list.
Qed.

(** X18. The home page raises, for every request, exactly when the
    in-memory events value is a non-empty JSON object, a number other than
    0, or [true]: the sort fails and is caught, but the slice [[:6]] of the
    fallback value is not. For a list, a string, [null], [false], 0 or an
    empty object the page is rendered. *)
Theorem index_raises_iff (EVENTS : pyval) (st : state) :
  (exists e, index EVENTS st = Raise e) <-> unsliceable EVENTS.
Proof.
  rewrite index_raises_with_preview.
  pose proof (events_preview_cases EVENTS) as H.
  destruct EVENTS as [|[|]|z|[|c s]|l|[|[k v] d]]; cbn [unsliceable].
  - rewrite H. split; [intros [e He]; discriminate He | intros []].
  - rewrite H. split; [reflexivity | eauto].
  - rewrite H. split; [intros [e He]; discriminate He | discriminate].
  - destruct (Z.eqb_spec z 0) as [->|Hz]; rewrite H.
    + split; [intros [e He]; discriminate He | intros Hz; contradiction].
    + split; [intros _; exact Hz | eauto].
  - rewrite H. split; [intros [e He]; discriminate He | intros []].
  - rewrite H. split; [intros [e He]; discriminate He | intros []].
  - destruct H as [shown ->]. split; [intros [e He]; discriminate He | intros []].
  - rewrite H. split; [intros [e He]; discriminate He | intros []].
  - rewrite H. split; [intros _; exact I | eauto].
Qed.

Lemma index_raises_iff_witness :
  (exists e, index (PyDict [(py "events", PyList [])]) empty_state = Raise e)
  /\ ~ (exists e, index (PyStr (py "soon")) empty_state = Raise e).
Proof.
  split.
  - apply (index_raises_iff (PyDict [(py "events", PyList [])]) empty_state). exact I.
  - intros H. apply (index_raises_iff (PyStr (py "soon")) empty_state) in H. exact H.
Defined.

Lemma start_keys_snd (evs : list pyval) (keyed : list (pyval * pyval)) :
  start_keys evs = Ok keyed -> map snd keyed = evs.
Proof.
  unfold start_keys. revert keyed. induction evs as [|e evs IH]; intros keyed H.
  - injection H as <-. reflexivity.
  - cbn [mapM] in H. destruct (getitem e (py "start")) as [k|]; [|discriminate H].
    cbn [bind] in H. destruct (mapM _ evs) as [ks|]; [|discriminate H].
    cbn [bind] in H. injection H as <-. simpl. rewrite (IH ks eq_refl). reflexivity.
Qed.

Lemma events_sorted_permutation (evs : list pyval) :
  exists sorted_evs,
    events_sorted (PyList evs) = Ok (PyList sorted_evs) /\ Permutation sorted_evs evs.
Proof.
  eexists. split; [apply events_sorted_list|].
  destruct (start_keys evs) as [keyed|] eqn:Hk; [|reflexivity].
  destruct (sort_keyed keyed) as [s|] eqn:Hs; [|reflexivity].
  apply sort_keyed_inv in Hs as [Hp _]. apply start_keys_snd in Hk. rewrite <- Hk.
  apply Permutation_map. exact Hp.
Qed.

(** X19. Whatever the events list holds, the event preview shows events of
    the list only, none more often than the list has it, and as many as fit:
    six, or all of them when the list has six or fewer. Sorting never drops
    or repeats an event. *)
Theorem events_preview_shows_only_events (evs : list pyval) :
  exists shown,
    events_preview (PyList evs) = Ok (PyList shown)
    /\ shown ⊆+ evs
    /\ length shown = Nat.min 6 (length evs)
    /\ ((length evs <= 6)%nat -> Permutation shown evs).
Proof.
  destruct (events_sorted_permutation evs) as (sorted_evs & Hs & Hp).
  exists (take 6 sorted_evs). split; [apply events_preview_list; exact Hs|].
  split; [|split].
  - rewrite <- Hp. apply sublist_submseteq, sublist_take.
  - rewrite length_take, (Permutation_length Hp). reflexivity.
  - intros Hlen. rewrite take_ge; [exact Hp|].
    rewrite (Permutation_length Hp). exact Hlen.
Qed.

Lemma events_preview_shows_only_events_witness :
  exists shown,
    events_preview (PyList mixed_events) = Ok (PyList shown)
    /\ shown ⊆+ mixed_events
    /\ length shown = Nat.min 6 (length mixed_events)
    /\ Permutation shown mixed_events.
Proof.
  destruct (events_preview_shows_only_events mixed_events)
    as (shown & H1 & H2 & H3 & H4).
  exists shown. split; [exact H1|]. split; [exact H2|]. split; [exact H3|].
  apply H4. simpl. lia.
Defined.

(** X21. An events file that holds a non-empty JSON object is loaded
    without complaint, and /events and /api/events answer with it, but every
    request for the home page raises. *)
Theorem object_events_file_breaks_home_page
    (f : events_file) (k : pystr) (v : pyval) (items : list (pystr * pyval))
    (st : state) :
  file_exists f = true -> file_json f = Ok (PyDict ((k, v) :: items)) ->
  exists EVENTS,
    load_events f = Ok EVENTS
    /\ (exists e, index EVENTS st = Raise e)
    /\ events EVENTS st
       = Ok (Render "events.html" [("title", CtxStr "Events"); ("events", CtxPy EVENTS)],
             st)
    /\ api_events EVENTS st = Ok (Json EVENTS, st).
Proof.
  intros Hex Hjson. exists (PyDict ((k, v) :: items)).
  split; [unfold load_events; rewrite Hex, Hjson; reflexivity|].
  split; [|split; reflexivity].
  apply index_raises_with_preview. exists TypeError.
  apply (events_preview_cases (PyDict ((k, v) :: items))).
Qed.

Lemma object_events_file_breaks_home_page_witness :
  exists EVENTS,
    load_events {| file_exists := true;
                   file_json := Ok (PyDict [(py "events", PyList [])]) |} = Ok EVENTS
    /\ (exists e, index EVENTS empty_state = Raise e)
    /\ events EVENTS empty_state
       = Ok (Render "events.html" [("title", CtxStr "Events"); ("events", CtxPy EVENTS)],
             empty_state)
    /\ api_events EVENTS empty_state = Ok (Json EVENTS, empty_state).
Proof.
  apply (object_events_file_breaks_home_page
           {| file_exists := true;
              file_json := Ok (PyDict [(py "events", PyList [])]) |}
           (py "events") (PyList []) [] empty_state); reflexivity.
Defined.

Lemma same_start_refl (e : pyval) : same_start (str_field "start" e) e = true.
Proof. unfold same_start. apply bool_decide_eq_true. reflexivity. Qed.

(** Two arrangements in ascending order of start date that list the events
    of each date in the same order are the same arrangement. *)
Lemma stable_order_unique (s1 s2 : list pyval) :
  StronglySorted start_le s1 -> StronglySorted start_le s2 ->
  (forall d, List.filter (same_start d) s1 = List.filter (same_start d) s2) ->
  s1 = s2.
Proof.
  intros H1. revert s2. induction H1 as [|x s1 Hs1 IH Hx]; intros s2 H2 Hf.
  - destruct s2 as [|y s2]; [reflexivity|].
    specialize (Hf (str_field "start" y)). cbn [List.filter] in Hf.
    rewrite same_start_refl in Hf. discriminate Hf.
  - destruct s2 as [|y s2].
    { specialize (Hf (str_field "start" x)). cbn [List.filter] in Hf.
      rewrite same_start_refl in Hf. discriminate Hf. }
    inversion H2 as [|? ? Hs2 Hy]; subst.
    assert (str_field "start" y = str_field "start" x) as Hxy.
    { apply str_le_antisym.
      - assert (In x (y :: s2)) as Hin.
        { eapply proj1. apply (filter_In (same_start (str_field "start" x))).
          rewrite <- Hf. cbn [List.filter]. rewrite same_start_refl. left. reflexivity. }
        destruct Hin as [->|Hin]; [apply str_le_refl|].
        rewrite Forall_forall in Hy. apply Hy, list_elem_of_In, Hin.
      - assert (In y (x :: s1)) as Hin.
        { eapply proj1. apply (filter_In (same_start (str_field "start" y))).
          rewrite Hf. cbn [List.filter]. rewrite same_start_refl. left. reflexivity. }
        destruct Hin as [->|Hin]; [apply str_le_refl|].
        rewrite Forall_forall in Hx. apply Hx, list_elem_of_In, Hin. }
    pose proof (Hf (str_field "start" x)) as Hhead. cbn [List.filter] in Hhead.
    rewrite same_start_refl in Hhead. rewrite <- Hxy, same_start_refl in Hhead.
    injection Hhead as -> _. f_equal. apply IH; [exact Hs2|].
    intros d. specialize (Hf d). cbn [List.filter] in Hf.
    destruct (same_start d y); [injection Hf as Hf|]; exact Hf.
Qed.

Lemma events_sorted_dated (evs : list pyval) :
  Forall has_start_date evs ->
  events_sorted (PyList evs) = Ok (PyList (isort start_ltb evs)).
Proof.
  intros Hdated. rewrite events_sorted_list, (start_keys_dated evs Hdated).
  rewrite sort_keyed_dated, snd_with_start. reflexivity.
Qed.

(** X20. When every event has a start date, the order in which [index]
    sorts the events is determined by two properties, whatever the sorting
    algorithm: the start dates ascend, and events with the same start date
    keep the order they have in the list. *)
Theorem sorted_events_are_the_stable_order (evs s : list pyval) :
  Forall has_start_date evs ->
  events_sorted (PyList evs) = Ok (PyList s)
  <-> StronglySorted start_le s
      /\ forall d, List.filter (same_start d) s = List.filter (same_start d) evs.
Proof.
  intros Hdated. rewrite (events_sorted_dated evs Hdated). split.
  - intros H. injection H as <-. split.
    + apply sort_by_start_strongly_sorted.
    + intros d. apply sort_by_start_stable.
  - intros [Hs Hf]. f_equal. f_equal. symmetry.
    apply stable_order_unique; [exact Hs | apply sort_by_start_strongly_sorted|].
    intros d. rewrite Hf. symmetry. apply sort_by_start_stable.
Qed.

Lemma sorted_events_are_the_stable_order_witness :
  StronglySorted start_le
    [event "Camp" "2025-01-15"; event "Clinic" "2025-06-01";
     event "League" "2025-06-01"; event "Open" "2025-11-02"]
  /\ forall d,
       List.filter (same_start d)
         [event "Camp" "2025-01-15"; event "Clinic" "2025-06-01";
          event "League" "2025-06-01"; event "Open" "2025-11-02"]
       = List.filter (same_start d)
           [event "Open" "2025-11-02"; event "Clinic" "2025-06-01";
            event "Camp" "2025-01-15"; event "League" "2025-06-01"].
Proof.
  apply (sorted_events_are_the_stable_order
           [event "Open" "2025-11-02"; event "Clinic" "2025-06-01";
            event "Camp" "2025-01-15"; event "League" "2025-06-01"]).
  - repeat constructor; eexists; reflexivity.
  - reflexivity.
Defined.

(** X22. When the store fails under a valid membership form (the engine
    raises, or the members table is missing), the handler flashes the error
    it caught and leaves the database as it was. *)
Theorem membership_flashes_storage_error
    (rq : request) (ev : env) (st : state) (age : sqlval) :
  method rq = POST ->
  filled (form rq) "name" -> filled (form rq) "email" ->
  submitted_age (form rq) age ->
  (forall e, storage_fault ev = Some e ->
     membership rq ev st
     = Ok (Redirect (UrlFor "membership" None),
           flash (Formatted "Error saving your registration: " e) "danger" st))
  /\ (storage_fault ev = None -> members (st_db st) = None ->
      membership rq ev st
      = Ok (Redirect (UrlFor "membership" None),
            flash (Formatted "Error saving your registration: " OperationalError)
              "danger" st)).
Proof.
  intros Hm Hname Hemail Hage.
  destruct (stripped_field_filled _ _ Hname) as (n & Hn & _ & Htn).
  destruct (stripped_field_filled _ _ Hemail) as (m & He & _ & Htm).
  destruct (age_binding _ _ Hage) as (a & Hint & _).
  unfold membership. rewrite Hm, Hn, He, Htn, Htm. cbn [negb orb].
  rewrite Hint. cbn [bind]. unfold insert_member. split.
  - intros e ->. reflexivity.
  - intros -> ->. reflexivity.
Qed.

Lemma membership_flashes_storage_error_witness :
  membership (post [("name", py "Jane Doe"); ("email", py "jane@example.com")])
    {| clock := []; storage_fault := Some OSError; listing := Ok [] |} fresh_state
  = Ok (Redirect (UrlFor "membership" None),
        flash (Formatted "Error saving your registration: " OSError) "danger" fresh_state)
  /\ membership (post [("name", py "Jane Doe"); ("email", py "jane@example.com")])
       sample_env empty_state
     = Ok (Redirect (UrlFor "membership" None),
           flash (Formatted "Error saving your registration: " OperationalError)
             "danger" empty_state).
Proof.
  assert (filled (form (post [("name", py "Jane Doe"); ("email", py "jane@example.com")]))
            "name") as Hn
      by (exists (py "Jane Doe"); split; [reflexivity | discriminate]).
  assert (filled (form (post [("name", py "Jane Doe"); ("email", py "jane@example.com")]))
            "email") as He
      by (exists (py "jane@example.com"); split; [reflexivity | discriminate]).
  assert (submitted_age
            (form (post [("name", py "Jane Doe"); ("email", py "jane@example.com")]))
            SqlNull) as Ha
      by (left; split; [reflexivity | left; reflexivity]).
  split.
  - apply (proj1 (membership_flashes_storage_error
                    (post [("name", py "Jane Doe"); ("email", py "jane@example.com")])
                    {| clock := []; storage_fault := Some OSError; listing := Ok [] |}
                    fresh_state SqlNull eq_refl Hn He Ha) OSError).
    reflexivity.
  - apply (proj2 (membership_flashes_storage_error
                    (post [("name", py "Jane Doe"); ("email", py "jane@example.com")])
                    sample_env empty_state SqlNull eq_refl Hn He Ha)); reflexivity.
Defined.

(** ** [int] on sample strings *)

(** Digits of other scripts, underscores and surrounding whitespace are
    read; U+001C is not whitespace for [int]; 4300 digits are the most. *)
Example py_int_samples :
  py_int (py "٣٠") = Ok 30
  /\ py_int (py " -1_000 ") = Ok (-1000)
  /\ py_int (py "+007") = Ok 7
  /\ py_int (160 :: py "5")%N = Ok 5
  /\ py_int (28 :: py "5")%N = Raise ValueError
  /\ py_int (py "1__0") = Raise ValueError
  /\ py_int (py "12_") = Raise ValueError
  /\ py_int (py "- 5") = Raise ValueError
  /\ py_int (py "3.5") = Raise ValueError
  /\ py_int [] = Raise ValueError
  /\ py_int (repeat 48%N 4300) = Ok 0
  /\ py_int (repeat 48%N 4301) = Raise ValueError.
Proof. vm_compute. repeat split. Qed.

(** An age written in Arabic-Indic digits is stored as its value. *)
Example membership_reads_digits_of_other_scripts :
  exists r st',
    membership (post [("name", py "Jane Doe"); ("email", py "jane@example.com");
                      ("age", py "٣٠")]) sample_env fresh_state
    = Ok (Redirect (UrlFor "membership" None), st')
    /\ member_rows (st_db st') = [r]
    /\ member_age r = SqlInteger 30.
Proof. eexists _, _. repeat split. Qed.
